(** * go-utils / jiankong: the server-monitor bot, embedded and verified

    A shallow embedding of [jiankong/main.go]: the configuration loader,
    the real-time alert loop with its hysteresis flags, the daily
    scheduler in the fixed UTC+8 zone, IP masking, uptime rendering and
    the retrieval helpers with their fallbacks.

    Conventions.
    - Go's [int]/[int64]/[uint64] are [Z] with the wrap-around written out
      ([wrap64]); [int] is 64 bits wide, as on every 64-bit platform.
    - Go's [string] is a byte sequence: Rocq's [string], UTF-8 encoded.
    - A [float64] is kept by its extended-real value ([float64] below).
    - A [map[string]bool] is a [gmap string bool]; reading an absent key
      gives [false], writing always binds the key.
    - A run-time panic (an index out of range) is [None] in [option]. *)

From Stdlib Require Import ZArith QArith Qround Qabs Qpower Lqa Strings.String Strings.Ascii List Lia Bool.
From stdpp Require Import gmap strings list.

Open Scope string_scope.
Open Scope Z_scope.

(** ** Machine integers *)

Definition min_int64 : Z := - 2 ^ 63.
Definition max_int64 : Z := 2 ^ 63 - 1.

(** Two's-complement wrap-around of Go's 64-bit signed arithmetic. *)
Definition wrap64 (z : Z) : Z := (z + 2 ^ 63) mod 2 ^ 64 - 2 ^ 63.

Definition in_int64 (z : Z) : Prop := min_int64 <= z <= max_int64.

(** Go's [/] and [%] on signed integers truncate toward zero. *)
Definition go_div (a b : Z) : Z := Z.quot a b.
Definition go_mod (a b : Z) : Z := Z.rem a b.

(** ** Go's [strings] package, at one-byte separators *)

Module strings.

Fixpoint Count (s : string) (sep : ascii) : nat :=
  match s with
  | EmptyString => 0%nat
  | String a s' => ((if Ascii.eqb a sep then 1 else 0) + Count s' sep)%nat
  end.

Fixpoint Contains (s : string) (sep : ascii) : bool :=
  match s with
  | EmptyString => false
  | String a s' => Ascii.eqb a sep || Contains s' sep
  end.

(** [Split s sep] always yields [Count s sep + 1] pieces; [Split "" sep]
    is the one-element slice holding the empty string. *)
Fixpoint Split (s : string) (sep : ascii) : list string :=
  match s with
  | EmptyString => [EmptyString]
  | String a s' =>
      if Ascii.eqb a sep then EmptyString :: Split s' sep
      else match Split s' sep with
           | piece :: rest => String a piece :: rest
           | [] => [String a EmptyString]
           end
  end.

Fixpoint ReplaceAll (s : string) (old : ascii) (new : string) : string :=
  match s with
  | EmptyString => EmptyString
  | String a s' =>
      if Ascii.eqb a old then new +:+ ReplaceAll s' old new
      else String a (ReplaceAll s' old new)
  end.

Fixpoint HasPrefix (s prefix : string) : bool :=
  match prefix, s with
  | EmptyString, _ => true
  | String p prefix', String a s' => Ascii.eqb a p && HasPrefix s' prefix'
  | String _ _, EmptyString => false
  end.

Definition TrimPrefix (s prefix : string) : string :=
  if HasPrefix s prefix
  then String.substring (String.length prefix) (String.length s - String.length prefix) s
  else s.

Fixpoint Join (elems : list string) (sep : string) : string :=
  match elems with
  | [] => EmptyString
  | [e] => e
  | e :: rest => e +:+ sep +:+ Join rest sep
  end.

End strings.

(** [s[i:]] for [0 <= i <= len(s)]. *)
Definition slice_from (s : string) (i : nat) : string :=
  String.substring i (String.length s - i) s.

(** ** IP masking *)

(** [maskIP]: [parts[3]] is an indexing that panics when out of range, so
    the result is an [option]. *)
Definition maskIP (ip : string) : option string :=
  if Nat.eqb (strings.Count ip ".") 3 then
    let parts := strings.Split ip "." in
    part ← parts !! 3%nat;
    Some ("x.x.x." +:+ part)
  else if strings.Contains ip ":" then
    let ipStripped := strings.ReplaceAll ip ":" "" in
    if (8 <? String.length ipStripped)%nat
    then Some ("..." +:+ slice_from ipStripped (String.length ipStripped - 8))
    else Some ("..." +:+ ipStripped)
  else Some ip.

(** ** float64

    A [float64] is kept by the extended real it denotes: not-a-number, an
    infinity, or a finite rational (every finite binary64 is a dyadic
    rational). The two signed zeros are not told apart; comparisons do not
    tell them apart either. Arithmetic rounds to the nearest binary64,
    ties to even ([binary64_round]). *)

Inductive float64 : Type :=
  | FNaN
  | FInf (neg : bool)
  | FFin (q : Q).

Definition Qlt_bool (x y : Q) : bool := negb (Qle_bool y x).

(** IEEE 754 comparisons: any comparison with NaN is false. *)
Definition Flt (a b : float64) : bool :=
  match a, b with
  | FNaN, _ | _, FNaN => false
  | FInf na, FInf nb => na && negb nb
  | FInf na, FFin _ => na
  | FFin _, FInf nb => negb nb
  | FFin x, FFin y => Qlt_bool x y
  end.

Definition Fle (a b : float64) : bool :=
  match a, b with
  | FNaN, _ | _, FNaN => false
  | FInf na, FInf nb => na || negb nb
  | FInf na, FFin _ => na
  | FFin _, FInf nb => negb nb
  | FFin x, FFin y => Qle_bool x y
  end.

Definition Fgt (a b : float64) : bool := Flt b a.

(** Nearest integer to a rational, ties to the even one. *)
Definition round_half_even (q : Q) : Z :=
  let f := Qfloor q in
  match Qcompare (q - inject_Z f) (1 # 2) with
  | Lt => f
  | Gt => f + 1
  | Eq => if Z.even f then f else f + 1
  end.

(** [2 ^ e] as a rational, for any integer [e]. *)
Definition Qpow2 (e : Z) : Q := Qpower 2 e.

(** [floor (log2 a)] for a rational [a > 0]. *)
Definition Qlog2 (a : Q) : Z :=
  let e := Z.log2 (Qnum a) - Z.log2 (Zpos (Qden a)) in
  if Qle_bool (Qpow2 e) a then e else e - 1.

(** Rounding of a real to binary64: 53 bits of precision, the unit in the
    last place never below [2 ^ -1074], overflow to an infinity. *)
Definition binary64_round (q : Q) : float64 :=
  if Qeq_bool q 0 then FFin 0
  else
    let a := Qabs q in
    let ulp := Z.max (Qlog2 a - 52) (- 1074) in
    let m := round_half_even (a / Qpow2 ulp) in
    let v := (inject_Z m * Qpow2 ulp)%Q in
    if Qle_bool (Qpow2 1024) v then FInf (Qlt_bool q 0)
    else FFin (if Qlt_bool q 0 then - v else v)%Q.

Definition Fadd (a b : float64) : float64 :=
  match a, b with
  | FNaN, _ | _, FNaN => FNaN
  | FInf na, FInf nb => if Bool.eqb na nb then FInf na else FNaN
  | FInf na, FFin _ => FInf na
  | FFin _, FInf nb => FInf nb
  | FFin x, FFin y => binary64_round (x + y)
  end.

(** Division by a finite non-zero constant is all the program uses. *)
Definition Fdiv (a b : float64) : float64 :=
  match a, b with
  | FNaN, _ | _, FNaN => FNaN
  | FInf na, FInf nb => FNaN
  | FInf na, FFin y => FInf (xorb na (Qlt_bool y 0))
  | FFin x, FInf _ => FFin 0
  | FFin x, FFin y =>
      if Qeq_bool y 0
      then (if Qeq_bool x 0 then FNaN else FInf (Qlt_bool x 0))
      else binary64_round (x / y)
  end.

(** [float64(n)] for an integer [n]. *)
Definition float64_of_int (n : Z) : float64 := binary64_round (inject_Z n).

(** [int(f)]: the fraction is discarded; a value with no [int] (NaN, an
    infinity, out of range) converts to the smallest [int], as the amd64
    conversion instruction does. *)
Definition int_of_float64 (f : float64) : Z :=
  match f with
  | FFin q =>
      let t := if Qlt_bool q 0 then - Qfloor (- q) else Qfloor q in
      if (min_int64 <=? t) && (t <=? max_int64) then t else min_int64
  | _ => min_int64
  end.

(** ** Decimal rendering: the [%d] and [%.Nf] verbs of [fmt.Sprintf] *)

Fixpoint digits_fuel (fuel : nat) (n : Z) (acc : string) : string :=
  match fuel with
  | O => acc
  | S fuel' =>
      let acc' := String (ascii_of_nat (48 + Z.to_nat (n mod 10))) acc in
      if n <? 10 then acc' else digits_fuel fuel' (n / 10) acc'
  end.

(** Decimal digits of [n >= 0]; [Z.log2 n + 1] steps are enough. *)
Definition digits (n : Z) : string :=
  digits_fuel (S (Z.to_nat (Z.log2 n))) n EmptyString.

Definition fmt_d (n : Z) : string :=
  if n <? 0 then "-" +:+ digits (- n) else digits n.

Fixpoint zeros (k : nat) : string :=
  match k with O => EmptyString | S k' => String "0" (zeros k') end.

(** [n] in at least [w] digits, zero-filled on the left ([n >= 0]). *)
Definition pad0 (w : nat) (n : Z) : string :=
  let s := digits n in zeros (w - String.length s) +:+ s.

(** [%.{prec}f]. *)
Definition fmt_f (prec : nat) (f : float64) : string :=
  match f with
  | FNaN => "NaN"
  | FInf neg => if neg then "-Inf" else "+Inf"
  | FFin q =>
      let scale := 10 ^ Z.of_nat prec in
      let n := round_half_even (Qabs q * inject_Z scale) in
      (if Qlt_bool q 0 then "-" else "") +:+ digits (n / scale) +:+
      (if Nat.eqb prec 0 then "" else "." +:+ pad0 prec (n mod scale))
  end.

(** ** Configuration and monitor state *)

Record Config : Type := mkConfig {
  BotToken : string;
  ChatID : Z;
  ReportTime : string;
  CustomMessage : string;
  CPUThreshold : Z;
  MemThreshold : Z
}.

(** [ServerMonitor]: the configuration and the [alertSent] map. The bot
    handle is the outbox the operations below return; [lastStats] is
    written once by [initNetStats] and never read. *)
Record ServerMonitor : Type := mkMonitor {
  config : Config;
  alertSent : gmap string bool
}.

(** [m.alertSent[key]]: an absent key reads as [false]. *)
Definition alertFlag (a : gmap string bool) (key : string) : bool :=
  default false (a !! key).

(** [NewServerMonitor]: [alertSent] starts as an empty map. *)
Definition NewServerMonitor (c : Config) : ServerMonitor :=
  {| config := c; alertSent := ∅ |}.

(** ** Metric retrieval and its fallbacks *)

(** What a gopsutil call hands back: a value and an error, as Go returns
    them side by side. *)
Definition error : Type := option string.

Record VirtualMemoryStat : Type := mkMem {
  mem_Total : Z;
  mem_Used : Z;
  mem_UsedPercent : float64
}.

Record UsageStat : Type := mkDisk {
  disk_Total : Z;
  disk_Used : Z;
  disk_UsedPercent : float64
}.

Record IOCountersStat : Type := mkIO {
  BytesSent : Z;
  BytesRecv : Z
}.

Record InfoStat : Type := mkHost {
  Platform : string;
  Uptime : Z
}.

Record NetworkInfo : Type := mkNet {
  SentGB : float64;
  RecvGB : float64
}.

Record LocationInfo : Type := mkLoc {
  IP : string;
  Location : string;
  Country : string
}.

(** The outcome of the HTTP request of [getLocationInfo]. *)
Inductive HTTPResult : Type :=
  | GetFailed
  | ReadFailed
  | Body (body : string).

(** One round of answers of the outside world: what each retrieval call
    returns when it is made. *)
Record Probe : Type := mkProbe {
  cpu_Percent : list float64 * error;
  mem_VirtualMemory : VirtualMemoryStat * error;
  disk_Usage : UsageStat * error;
  net_IOCounters : list IOCountersStat * error;
  host_Info : InfoStat * error;
  http_Trace : HTTPResult
}.

Definition zeroF : float64 := FFin 0.

(** [err != nil]. *)
Definition failed (err : error) : bool :=
  match err with Some _ => true | None => false end.

(** [percent[0]] is read only behind the guard [len(percent) == 0]. *)
Definition getCPUUsage (p : Probe) : float64 :=
  let '(percent, err) := cpu_Percent p in
  if failed err || Nat.eqb (length percent) 0 then zeroF
  else match percent with
       | first :: _ => first
       | [] => zeroF
       end.

Definition getMemoryInfo (p : Probe) : VirtualMemoryStat :=
  let '(memInfo, err) := mem_VirtualMemory p in
  if failed err then {| mem_Total := 0; mem_Used := 0; mem_UsedPercent := zeroF |}
  else memInfo.

Definition getDiskInfo (p : Probe) : UsageStat :=
  let '(diskInfo, err) := disk_Usage p in
  if failed err then {| disk_Total := 0; disk_Used := 0; disk_UsedPercent := zeroF |}
  else diskInfo.

Definition GB : float64 := FFin 1024.

Definition getNetworkInfo (p : Probe) : NetworkInfo :=
  let '(stats, err) := net_IOCounters p in
  if failed err || Nat.eqb (length stats) 0 then {| SentGB := zeroF; RecvGB := zeroF |}
  else match stats with
       | first :: _ =>
           {| SentGB := Fdiv (Fdiv (Fdiv (float64_of_int (BytesSent first)) GB) GB) GB;
              RecvGB := Fdiv (Fdiv (Fdiv (float64_of_int (BytesRecv first)) GB) GB) GB |}
       | [] => {| SentGB := zeroF; RecvGB := zeroF |}
       end.

Definition getHostInfo (p : Probe) : InfoStat :=
  let '(hostInfo, err) := host_Info p in
  if failed err then {| Platform := ""; Uptime := 0 |} else hostInfo.

Definition unknown : string := "未知".

Definition newline : ascii := ascii_of_nat 10.

(** The loop of [getLocationInfo] over the lines of the trace. *)
Definition scanLine (info : LocationInfo) (line : string) : LocationInfo :=
  if strings.HasPrefix line "ip=" then
    {| IP := strings.TrimPrefix line "ip="; Location := Location info; Country := Country info |}
  else if strings.HasPrefix line "loc=" then
    {| IP := IP info; Location := strings.TrimPrefix line "loc="; Country := Country info |}
  else if strings.HasPrefix line "colo=" then
    {| IP := IP info; Location := Location info; Country := strings.TrimPrefix line "colo=" |}
  else info.

Definition getLocationInfo (p : Probe) : LocationInfo :=
  match http_Trace p with
  | GetFailed => {| IP := unknown; Location := unknown; Country := "" |}
  | ReadFailed => {| IP := unknown; Location := unknown; Country := "" |}
  | Body body =>
      let lines := strings.Split body newline in
      let info := fold_left scanLine lines {| IP := ""; Location := ""; Country := "" |} in
      let info := if String.eqb (IP info) "" then
                    {| IP := unknown; Location := Location info; Country := Country info |}
                  else info in
      let info := if String.eqb (Location info) "" then
                    {| IP := IP info; Location := unknown; Country := Country info |}
                  else info in
      info
  end.

(** ** Uptime rendering *)

(** [time.Duration] is an [int64] count of nanoseconds. *)
Definition Second : Z := 1000000000.
Definition Minute : Z := 60 * Second.
Definition Hour : Z := 60 * Minute.

(** [Duration.Hours] and [Duration.Minutes], as the standard library
    computes them: the integral part and the fraction are converted apart
    and added. *)
Definition Duration_Hours (d : Z) : float64 :=
  let hour := go_div d Hour in
  let nsec := go_mod d Hour in
  Fadd (float64_of_int hour) (Fdiv (float64_of_int nsec) (FFin (inject_Z (60 * 60 * 1000000000)))).

Definition Duration_Minutes (d : Z) : float64 :=
  let min := go_div d Minute in
  let nsec := go_mod d Minute in
  Fadd (float64_of_int min) (Fdiv (float64_of_int nsec) (FFin (inject_Z (60 * 1000000000)))).

(** [time.Duration(uptime) * time.Second]: the conversion of the [uint64]
    and the product both wrap. *)
Definition uptimeDuration (uptime : Z) : Z := wrap64 (wrap64 uptime * Second).

Definition uptimeDays (uptime : Z) : Z :=
  go_div (int_of_float64 (Duration_Hours (uptimeDuration uptime))) 24.
Definition uptimeHours (uptime : Z) : Z :=
  go_mod (int_of_float64 (Duration_Hours (uptimeDuration uptime))) 24.
Definition uptimeMinutes (uptime : Z) : Z :=
  go_mod (int_of_float64 (Duration_Minutes (uptimeDuration uptime))) 60.

Definition formatUptime (uptime : Z) : string :=
  let days := uptimeDays uptime in
  let hours := uptimeHours uptime in
  let minutes := uptimeMinutes uptime in
  if 0 <? days then
    fmt_d days +:+ "天" +:+ fmt_d hours +:+ "小时" +:+ fmt_d minutes +:+ "分钟"
  else if 0 <? hours then
    fmt_d hours +:+ "小时" +:+ fmt_d minutes +:+ "分钟"
  else
    fmt_d minutes +:+ "分钟".

(** ** Time

    A [time.Time] is the instant it denotes, in nanoseconds since the Unix
    epoch; a location only changes how the instant is read as a calendar
    date and a clock time. Dates are those of the proleptic Gregorian
    calendar, computed by day number (days since 1970-01-01). *)

Definition nsPerSecond : Z := 1000000000.
Definition secondsPerDay : Z := 86400.

(** [time.FixedZone("CST", 8*3600)]: the offset east of UTC, in seconds. *)
Definition CST : Z := 8 * 3600.

(** Day number of the civil date [y]-[m]-[d]. *)
Definition days_from_civil (y m d : Z) : Z :=
  let y' := if m <=? 2 then y - 1 else y in
  let era := y' / 400 in
  let yoe := y' - era * 400 in
  let doy := (153 * (if 2 <? m then m - 3 else m + 9) + 2) / 5 + d - 1 in
  let doe := yoe * 365 + yoe / 4 - yoe / 100 + doy in
  era * 146097 + doe - 719468.

(** Civil date (year, month, day) of a day number. *)
Definition civil_from_days (z : Z) : Z * Z * Z :=
  let z' := z + 719468 in
  let era := z' / 146097 in
  let doe := z' - era * 146097 in
  let yoe := (doe - doe / 1460 + doe / 36524 - doe / 146096) / 365 in
  let doy := doe - (365 * yoe + yoe / 4 - yoe / 100) in
  let mp := (5 * doy + 2) / 153 in
  let d := doy - (153 * mp + 2) / 5 + 1 in
  let m := if mp <? 10 then mp + 3 else mp - 9 in
  let y := yoe + era * 400 in
  (if m <=? 2 then y + 1 else y, m, d).

(** Seconds since the epoch of an instant (rounded down). *)
Definition unixSeconds (t : Z) : Z := t / nsPerSecond.

(** Seconds on the wall clock of the zone [offset] since its 1970-01-01
    00:00:00. *)
Definition wallSeconds (t offset : Z) : Z := unixSeconds t + offset.

(** [t.In(zone).Year()], [.Month()], [.Day()]. *)
Definition Time_date (t offset : Z) : Z * Z * Z :=
  civil_from_days (wallSeconds t offset / secondsPerDay).

(** [t.In(zone).Hour()], [.Minute()], [.Second()]. *)
Definition Time_clock (t offset : Z) : Z * Z * Z :=
  let s := wallSeconds t offset mod secondsPerDay in
  (s / 3600, s mod 3600 / 60, s mod 60).

(** [time.Date(year, month, day, hour, min, sec, nsec, zone)] for fields in
    their normal ranges, as every call of the program has them. *)
Definition Time_Date (year month day hour min sec nsec offset : Z) : Z :=
  (days_from_civil year month day * secondsPerDay
   + hour * 3600 + min * 60 + sec - offset) * nsPerSecond + nsec.

Definition Time_After (t u : Z) : bool := u <? t.
Definition Time_Add (t d : Z) : Z := t + d.

(** [t.Sub(u)]: a [Duration], saturating at the ends of [int64]. *)
Definition Time_Sub (t u : Z) : Z :=
  Z.max min_int64 (Z.min max_int64 (t - u)).

(** [t.Format("2006-01-02 15:04:05")] in the zone [offset] (years 0 to
    9999 print in four digits). *)
Definition Time_Format (t offset : Z) : string :=
  let '(y, m, d) := Time_date t offset in
  let '(hh, mm, ss) := Time_clock t offset in
  pad0 4 y +:+ "-" +:+ pad0 2 m +:+ "-" +:+ pad0 2 d +:+ " " +:+
  pad0 2 hh +:+ ":" +:+ pad0 2 mm +:+ ":" +:+ pad0 2 ss.

(** *** [time.Parse("15:04", value)] *)

Definition isDigit (a : ascii) : bool :=
  let n := nat_of_ascii a in (48 <=? n)%nat && (n <=? 57)%nat.

Definition digitVal (a : ascii) : Z := Z.of_nat (nat_of_ascii a) - 48.

(** The parser's [getnum]: one or two leading digits; with [fixed], two
    digits are required. *)
Definition getnum (s : string) (fixed : bool) : option (Z * string) :=
  match s with
  | String a rest =>
      if isDigit a then
        match rest with
        | String b rest' =>
            if isDigit b then Some (digitVal a * 10 + digitVal b, rest')
            else if fixed then None else Some (digitVal a, rest)
        | EmptyString => if fixed then None else Some (digitVal a, rest)
        end
      else None
  | EmptyString => None
  end.

(** The hour and the minute of [time.Parse("15:04", value)], or [None]
    when it reports an error: the hour in one or two digits, a colon, the
    minute in two digits, nothing after; hour below 24, minute below 60. *)
Definition Parse_1504 (value : string) : option (Z * Z) :=
  '(hour, rest) ← getnum value false;
  if 24 <=? hour then None else
  match rest with
  | String ":" rest' =>
      '(min, rest'') ← getnum rest' true;
      if 60 <=? min then None else
      match rest'' with
      | EmptyString => Some (hour, min)
      | _ => None
      end
  | _ => None
  end.

(** ** The real-time alert loop *)

Definition cpuAlertText (cpuPercent : float64) : string :=
  "🚨 *CPU告警*: 使用率达到 " +:+ fmt_f 1 cpuPercent +:+ "%".

Definition memAlertText (usedPercent : float64) : string :=
  "🚨 *内存告警*: 使用率达到 " +:+ fmt_f 1 usedPercent +:+ "%".

(** One of the two checks in the body of the loop of [startRealTimeAlert]
    (the CPU check and the memory check are the same code up to the key,
    the threshold and the text): the new [alertSent] map and the messages
    handed to [sendMessage]. *)
Definition alertCheck (key : string) (text : float64 -> string)
    (value : float64) (threshold : Z) (sent : gmap string bool)
    : gmap string bool * list string :=
  if Fgt value (float64_of_int threshold) && negb (alertFlag sent key) then
    (<[key := true]> sent, [text value])
  else if Fle value (float64_of_int (wrap64 (threshold - 10))) then
    (<[key := false]> sent, [])
  else (sent, []).

(** The body of the loop: one tick. *)
Definition realTimeAlertTick (p : Probe) (m : ServerMonitor)
    : ServerMonitor * list string :=
  let cpuPercent := getCPUUsage p in
  let memInfo := getMemoryInfo p in
  let '(sent1, out1) :=
    alertCheck "cpu" cpuAlertText cpuPercent (CPUThreshold (config m)) (alertSent m) in
  let '(sent2, out2) :=
    alertCheck "mem" memAlertText (mem_UsedPercent memInfo) (MemThreshold (config m)) sent1 in
  ({| config := config m; alertSent := sent2 |}, (out1 ++ out2)%list).

(** [startRealTimeAlert] over the ticks that have happened so far, one
    probe per tick; the messages sent, oldest first. *)
Fixpoint startRealTimeAlert (ticks : list Probe) (m : ServerMonitor)
    : ServerMonitor * list string :=
  match ticks with
  | [] => (m, [])
  | p :: rest =>
      let '(m1, out1) := realTimeAlertTick p m in
      let '(m2, out2) := startRealTimeAlert rest m1 in
      (m2, (out1 ++ out2)%list)
  end.

(** The transition a check makes on the flag of its key. *)
Inductive Transition : Type := NoTransition | Fired | Cleared.

Definition transition (before after : bool) : Transition :=
  match before, after with
  | false, true => Fired
  | true, false => Cleared
  | _, _ => NoTransition
  end.

(** [evaluate(metricKey, value, threshold)]: a check, seen through the
    flag of its key. *)
Definition evaluate (key : string) (text : float64 -> string)
    (value : float64) (threshold : Z) (sent : gmap string bool) : Transition :=
  transition (alertFlag sent key)
             (alertFlag (fst (alertCheck key text value threshold sent)) key).

(** A run of checks of one key on the values [values], in order: the map
    at the end and, for each check, its transition and what it sent. *)
Fixpoint runChecks (key : string) (text : float64 -> string)
    (threshold : Z) (values : list float64) (sent : gmap string bool)
    : gmap string bool * list (Transition * list string) :=
  match values with
  | [] => (sent, [])
  | v :: rest =>
      let tr := evaluate key text v threshold sent in
      let '(sent1, out) := alertCheck key text v threshold sent in
      let '(sent2, trs) := runChecks key text threshold rest sent1 in
      (sent2, (tr, out) :: trs)
  end.

(** ** The report *)

Definition MB : float64 := FFin 1024.

(** [generateReport]; [None] is a panic inside [maskIP]. *)
Definition generateReport (p : Probe) (now : Z) (m : ServerMonitor) : option string :=
  let location := getLocationInfo p in
  masked ← maskIP (IP location);
  let line1 := "🌍 *服务器位置*: " +:+ Location location +:+ " (" +:+ masked +:+ ")" +:+ String newline "" in
  let line2 := "🕐 *更新时间*: " +:+ Time_Format now CST +:+ String newline (String newline "") in
  let cpuPercent := getCPUUsage p in
  let cpuIcon := if Fgt cpuPercent (float64_of_int (CPUThreshold (config m))) then "🔴" else "💚" in
  let line3 := cpuIcon +:+ " *CPU 使用率*: " +:+ fmt_f 1 cpuPercent +:+ "%" +:+ String newline "" in
  let memInfo := getMemoryInfo p in
  let memIcon := if Fgt (mem_UsedPercent memInfo) (float64_of_int (MemThreshold (config m))) then "🔴" else "💚" in
  let line4 := memIcon +:+ " *内存使用*: " +:+
               fmt_f 1 (Fdiv (Fdiv (float64_of_int (mem_Used memInfo)) MB) MB) +:+ "MB/" +:+
               fmt_f 1 (Fdiv (Fdiv (float64_of_int (mem_Total memInfo)) MB) MB) +:+ "MB (" +:+
               fmt_f 1 (mem_UsedPercent memInfo) +:+ "%)" +:+ String newline "" in
  let diskInfo := getDiskInfo p in
  let diskIcon := if Fgt (disk_UsedPercent diskInfo) (float64_of_int 80) then "🔴" else "💚" in
  let line5 := diskIcon +:+ " *磁盘使用*: " +:+
               fmt_f 1 (Fdiv (Fdiv (Fdiv (float64_of_int (disk_Used diskInfo)) GB) GB) GB) +:+ "GB/" +:+
               fmt_f 1 (Fdiv (Fdiv (Fdiv (float64_of_int (disk_Total diskInfo)) GB) GB) GB) +:+ "GB (" +:+
               fmt_f 1 (disk_UsedPercent diskInfo) +:+ "%)" +:+ String newline "" in
  let netInfo := getNetworkInfo p in
  let line6 := "📊 *网络流量*: ↓" +:+ fmt_f 2 (RecvGB netInfo) +:+ "GB ↑" +:+
               fmt_f 2 (SentGB netInfo) +:+ "GB" +:+ String newline "" in
  let hostInfo := getHostInfo p in
  let line7 := String newline "" +:+ "🖥️ *系统信息*:" +:+ String newline "" in
  let line8 := "• 系统: " +:+ Platform hostInfo +:+ String newline "" in
  let line9 := "• 运行时间: " +:+ formatUptime (Uptime hostInfo) +:+ String newline "" in
  Some (line1 +:+ line2 +:+ line3 +:+ line4 +:+ line5 +:+ line6 +:+ line7 +:+ line8 +:+
        line9 +:+ String newline "" +:+ CustomMessage (config m) +:+ String newline "").

(** ** The scheduled report *)

(** [checkAndSendAlert]: the alerts found and the message sent, if any. *)
Definition checkAndSendAlert (p : Probe) (now : Z) (m : ServerMonitor)
    : ServerMonitor * list string :=
  let alerts := [] in
  let cpuPercent := getCPUUsage p in
  let alerts :=
    if Fgt cpuPercent (float64_of_int (CPUThreshold (config m)))
    then (alerts ++ ["🔴 CPU 使用率过高: " +:+ fmt_f 1 cpuPercent +:+ "%"])%list
    else alerts in
  let memInfo := getMemoryInfo p in
  let alerts :=
    if Fgt (mem_UsedPercent memInfo) (float64_of_int (MemThreshold (config m)))
    then (alerts ++ ["🔴 内存使用率过高: " +:+ fmt_f 1 (mem_UsedPercent memInfo) +:+ "%"])%list
    else alerts in
  if (0 <? length alerts)%nat then
    let alertMsg :=
      "⚠️ *服务器告警通知*" +:+ String newline (String newline "") +:+
      strings.Join alerts (String newline "") +:+
      String newline (String newline "") +:+ "时间: " +:+ Time_Format now CST in
    (m, [alertMsg])
  else (m, []).

(** What a cycle of [startScheduledReport] decides before it sleeps: the
    one-minute back-off on a report time that does not parse, or the
    instant of the next report and the time to wait for it. *)
Inductive Schedule : Type :=
  | Backoff (wait : Z)
  | Fire (targetTime waitDuration : Z).

Definition nextReport (now : Z) (m : ServerMonitor) : Schedule :=
  let beijingTime := now in
  match Parse_1504 (ReportTime (config m)) with
  | None => Backoff Minute
  | Some (hour, min) =>
      let '(y, mo, d) := Time_date beijingTime CST in
      let targetTime := Time_Date y mo d hour min 0 0 CST in
      let targetTime :=
        if Time_After beijingTime targetTime
        then Time_Add targetTime (24 * Hour)
        else targetTime in
      let waitDuration := Time_Sub targetTime beijingTime in
      Fire targetTime waitDuration
  end.

(** What the cycle does once it wakes: the report, then the alert pass.
    Each step asks the outside world anew and reads the clock anew. *)
Definition reportAndCheck (p1 : Probe) (now1 : Z) (p2 : Probe) (now2 : Z)
    (m : ServerMonitor) : option (ServerMonitor * list string) :=
  report ← generateReport p1 now1 m;
  let '(m', out) := checkAndSendAlert p2 now2 m in
  Some (m', report :: out).

(** ** Loading the configuration *)

(** [strconv.ParseInt(s, 10, 64)] and [strconv.Atoi(s)] (the same
    function on a 64-bit platform): an optional sign, then one or more
    decimal digits, the value within [int64]; [None] is an error. *)
Fixpoint parseDigits (s : string) (acc : Z) : option Z :=
  match s with
  | EmptyString => Some acc
  | String a s' =>
      if isDigit a then parseDigits s' (acc * 10 + digitVal a) else None
  end.

Definition ParseInt (s : string) : option Z :=
  match s with
  | EmptyString => None
  | String a rest =>
      let '(neg, body) :=
        if Ascii.eqb a "+" then (false, rest)
        else if Ascii.eqb a "-" then (true, rest)
        else (false, s) in
      match body with
      | EmptyString => None
      | _ =>
          un ← parseDigits body 0;
          let n := if neg : bool then - un else un in
          if (min_int64 <=? n) && (n <=? max_int64) then Some n else None
      end
  end.

Definition Atoi : string -> option Z := ParseInt.

(** The process environment; [os.Getenv] of an unset variable is the
    empty string. *)
Definition Getenv (env : gmap string string) (key : string) : string :=
  default "" (env !! key).

(** What [json.Unmarshal(data, config)] stores into a [Config]: for each
    field, either nothing (the key is absent, its value is [null] or of
    the wrong type) or the value decoded for it. A value is stored as
    decoded, the empty string and zero included. Data that is not valid
    JSON stores nothing at all. *)
Record Decoded : Type := mkDecoded {
  bot_token : option string;
  chat_id : option Z;
  report_time : option string;
  custom_message : option string;
  cpu_threshold : option Z;
  mem_threshold : option Z
}.

(** [os.ReadFile("config.json")]: an error, or data and what it decodes to. *)
Inductive ConfigFile : Type :=
  | ReadError
  | Data (decoded : Decoded).

Definition json_Unmarshal (d : Decoded) (c : Config) : Config :=
  {| BotToken := default (BotToken c) (bot_token d);
     ChatID := default (ChatID c) (chat_id d);
     ReportTime := default (ReportTime c) (report_time d);
     CustomMessage := default (CustomMessage c) (custom_message d);
     CPUThreshold := default (CPUThreshold c) (cpu_threshold d);
     MemThreshold := default (MemThreshold c) (mem_threshold d) |}.

Definition defaultConfig : Config :=
  {| BotToken := ""; ChatID := 0; ReportTime := "15:00";
     CustomMessage := "🖥️ 服务器状态报告";
     CPUThreshold := 80; MemThreshold := 80 |}.

Definition set_BotToken (v : string) (c : Config) : Config :=
  mkConfig v (ChatID c) (ReportTime c) (CustomMessage c) (CPUThreshold c) (MemThreshold c).
Definition set_ChatID (v : Z) (c : Config) : Config :=
  mkConfig (BotToken c) v (ReportTime c) (CustomMessage c) (CPUThreshold c) (MemThreshold c).
Definition set_ReportTime (v : string) (c : Config) : Config :=
  mkConfig (BotToken c) (ChatID c) v (CustomMessage c) (CPUThreshold c) (MemThreshold c).
Definition set_CustomMessage (v : string) (c : Config) : Config :=
  mkConfig (BotToken c) (ChatID c) (ReportTime c) v (CPUThreshold c) (MemThreshold c).
Definition set_CPUThreshold (v : Z) (c : Config) : Config :=
  mkConfig (BotToken c) (ChatID c) (ReportTime c) (CustomMessage c) v (MemThreshold c).
Definition set_MemThreshold (v : Z) (c : Config) : Config :=
  mkConfig (BotToken c) (ChatID c) (ReportTime c) (CustomMessage c) (CPUThreshold c) v.

(** [if v := os.Getenv(key); v != "" { config.F = v }]. *)
Definition envString (env : gmap string string) (key : string)
    (set : string -> Config -> Config) (c : Config) : Config :=
  let v := Getenv env key in
  if String.eqb v "" then c else set v c.

(** The same with a number: a value that does not parse is passed over. *)
Definition envInt (env : gmap string string) (key : string)
    (set : Z -> Config -> Config) (c : Config) : Config :=
  let v := Getenv env key in
  if String.eqb v "" then c
  else match ParseInt v with
       | Some n => set n c
       | None => c
       end.

(** The configuration after the environment has been read. *)
Definition fromEnv (env : gmap string string) : Config :=
  let config := defaultConfig in
  let config := envString env "BOT_TOKEN" set_BotToken config in
  let config := envInt env "CHAT_ID" set_ChatID config in
  let config := envString env "REPORT_TIME" set_ReportTime config in
  let config := envString env "CUSTOM_MESSAGE" set_CustomMessage config in
  let config := envInt env "CPU_THRESHOLD" set_CPUThreshold config in
  let config := envInt env "MEM_THRESHOLD" set_MemThreshold config in
  config.

(** [loadConfig]: the defaults, then the environment, then [config.json]
    when it can be read; an error when the token or the chat is missing. *)
Definition loadConfig (env : gmap string string) (file : ConfigFile)
    : Config + string :=
  let config := fromEnv env in
  let config :=
    match file with
    | ReadError => config
    | Data decoded => json_Unmarshal decoded config
    end in
  if String.eqb (BotToken config) "" then inr "必须设置 BOT_TOKEN"
  else if ChatID config =? 0 then inr "必须设置 CHAT_ID"
  else inl config.

(** What the environment sets a field to, if anything. *)
Definition envSetsString (env : gmap string string) (key : string) : option string :=
  let v := Getenv env key in if String.eqb v "" then None else Some v.

Definition envSetsInt (env : gmap string string) (key : string) : option Z :=
  let v := Getenv env key in if String.eqb v "" then None else ParseInt v.

(** ** Auxiliary definitions of the proofs *)

(** Exponent of the unit in the last place of the binary64 nearest to
    [a > 0]. *)
Definition ulp_exp (a : Q) : Z := Z.max (Qlog2 a - 52) (- 1074).

(** The magnitude [binary64_round] gives to a value of magnitude [a]. *)
Definition rounded_mag (a : Q) : Q :=
  (inject_Z (round_half_even (a / Qpow2 (ulp_exp a))) * Qpow2 (ulp_exp a))%Q.

(** The part of the round trip that depends on the day of the 400-year
    era only. *)
Definition era_round_trip (doe : Z) : bool :=
  let yoe := (doe - doe / 1460 + doe / 36524 - doe / 146096) / 365 in
  let doy := doe - (365 * yoe + yoe / 4 - yoe / 100) in
  let mp := (5 * doy + 2) / 153 in
  let d := doy - (153 * mp + 2) / 5 + 1 in
  let m := if mp <? 10 then mp + 3 else mp - 9 in
  (0 <=? yoe) && (yoe <? 400)
  && (yoe * 365 + yoe / 4 - yoe / 100
      + ((153 * (if 2 <? m then m - 3 else m + 9) + 2) / 5 + d - 1) =? doe)
  && (1 <=? m) && (m <=? 12) && (1 <=? d) && (d <=? 31).

Fixpoint all_from (f : Z -> bool) (n : nat) (from : Z) : bool :=
  match n with
  | O => true
  | S n' => f from && all_from f n' (from + 1)
  end.

(** What the file stores, field by field; nothing when it cannot be read. *)
Definition decodedOf (file : ConfigFile) : Decoded :=
  match file with
  | ReadError => mkDecoded None None None None None None
  | Data d => d
  end.

(** The value of a field under the order file, environment, default. *)
Definition pick {A : Type} (fromFile fromEnv : option A) (dflt : A) : A :=
  match fromFile, fromEnv with
  | Some v, _ => v
  | None, Some v => v
  | None, None => dflt
  end.

Definition sampleEnv : gmap string string :=
  <["BOT_TOKEN" := "token"]> (<["CHAT_ID" := "-1001234567890"]>
  (<["REPORT_TIME" := "21:00"]> (<["CPU_THRESHOLD" := "90"]> ∅))).

Definition sampleFile : ConfigFile :=
  Data (mkDecoded None None (Some "08:30") None (Some 70) None).

Definition sampleConfig : Config :=
  mkConfig "token" (-1001234567890) "08:30" "🖥️ 服务器状态报告" 70 80.


(** ** Further definitions of the properties *)

(** The target of the day with number [day], in the UTC+8 zone. *)
Definition targetOfDay (day hour min : Z) : Z :=
  (day * secondsPerDay + hour * 3600 + min * 60 - CST) * nsPerSecond.

(** [hour]:[min] written the canonical way, and with a one-digit hour. *)
Definition clockText (hour min : Z) : string :=
  pad0 2 hour +:+ ":" +:+ pad0 2 min.
Definition shortClockText (hour min : Z) : string :=
  digits hour +:+ ":" +:+ pad0 2 min.

Definition parses_back (hour min : Z) : bool :=
  match Parse_1504 (clockText hour min) with
  | Some (h, m) => (h =? hour) && (m =? min)
  | None => false
  end
  && ((10 <=? hour)
      || match Parse_1504 (shortClockText hour min) with
         | Some (h, m) => (h =? hour) && (m =? min)
         | None => false
         end).

Definition isFired (r : Transition * list string) : bool :=
  match fst r with Fired => true | _ => false end.
Definition isCleared (r : Transition * list string) : bool :=
  match fst r with Cleared => true | _ => false end.

(** A probe with the given answer of the CPU call and the given memory
    percentage; the other calls fail. *)
Definition sampleProbe (cpu : list float64 * error) (memPercent : float64) : Probe :=
  {| cpu_Percent := cpu;
     mem_VirtualMemory := (mkMem 0 0 memPercent, None);
     disk_Usage := (mkDisk 0 0 zeroF, Some "unavailable");
     net_IOCounters := ([], Some "unavailable");
     host_Info := (mkHost EmptyString 0, Some "unavailable");
     http_Trace := GetFailed |}.

(** A monitor with thresholds 80 and 80 whose CPU flag is set. *)
Definition sampleMonitor : ServerMonitor :=
  {| config := mkConfig "token" 1 "15:00" "report" 80 80;
     alertSent := {["cpu" := true]} |}.

(** An environment with thresholds outside 0 to 100. *)
Definition thresholdEnv : gmap string string :=
  <["BOT_TOKEN" := "token"]> (<["CHAT_ID" := "7"]>
  (<["CPU_THRESHOLD" := "-5"]> (<["MEM_THRESHOLD" := "1000"]> ∅))).

(** A probe whose trace request answers with the given lines. *)
Definition traceProbe (before : list string) (key value : string) (after : list string)
    : Probe :=
  {| cpu_Percent := ([], None);
     mem_VirtualMemory := (mkMem 0 0 zeroF, None);
     disk_Usage := (mkDisk 0 0 zeroF, None);
     net_IOCounters := ([], None);
     host_Info := (mkHost EmptyString 0, None);
     http_Trace :=
       Body (strings.Join (before ++ [key +:+ value] ++ after)%list (String newline EmptyString)) |}.

(** A probe whose network counters read [sent] and [recv] bytes. *)
Definition counterProbe (sent recv : Z) : Probe :=
  {| cpu_Percent := ([], None);
     mem_VirtualMemory := (mkMem 0 0 zeroF, None);
     disk_Usage := (mkDisk 0 0 zeroF, None);
     net_IOCounters := ([mkIO sent recv], None);
     host_Info := (mkHost EmptyString 0, None);
     http_Trace := GetFailed |}.


(** ** The IP card service (package [ips])

    The pure parts of the HTTP service that draws a card with the
    caller's address: the scaling of the logo, the cache in front of the
    geolocation lookup and the shortening of the user agent. *)

Record Rectangle : Type := mkRect {
  Min_X : Z;
  Min_Y : Z;
  Max_X : Z;
  Max_Y : Z
}.

Definition Dx (r : Rectangle) : Z := Max_X r - Min_X r.
Definition Dy (r : Rectangle) : Z := Max_Y r - Min_Y r.

(** The values of a loop [for i := 0; i < n; i++]. *)
Definition upto (n : Z) : list Z := map Z.of_nat (seq 0 (Z.to_nat n)).

Section Images.

(** A colour, the conversion that [RGBA.Set] applies to what it stores,
    and the colour of a pixel that was never set. *)
Variable Color : Type.
Variable RGBAModel : Color -> Color.

(** An [image.Image]: its bounds and the colour at each point. *)
Record Image : Type := mkImage {
  Bounds : Rectangle;
  At : Z -> Z -> Color
}.

(** [resizeLogo]: the pixels set in [dst], row by row ([y] outside, [x]
    inside), for [width] and [height] that are not negative. *)
Definition resizeLogo (src : Image) (width height : Z) : list (list Color) :=
  let bounds := Bounds src in
  map (fun y =>
         map (fun x =>
                let srcX := go_div (wrap64 (x * Dx bounds)) width in
                let srcY := go_div (wrap64 (y * Dy bounds)) height in
                RGBAModel (At src (Min_X bounds + srcX) (Min_Y bounds + srcY)))
             (upto width))
      (upto height).

End Images.

Arguments mkImage {Color}.
Arguments Bounds {Color}.
Arguments At {Color}.
Arguments resizeLogo {Color}.

(** [ipInfo]: the answer of ipinfo.io, decoded. *)
Record ipInfo : Type := mkIpInfo {
  info_IP : string;
  info_City : string;
  info_Region : string;
  info_Country : string;
  info_Org : string;
  info_Loc : string
}.

(** What the request of [lookupGeo] comes to: the request cannot be
    built, it fails, the status is not 200, the body does not decode, or
    an answer. *)
Inductive GeoResponse : Type :=
  | RequestError
  | DoError
  | BadStatus (code : Z)
  | DecodeError
  | Answer (info : ipInfo).

Definition unknownRegion : string := "未知地区".
Definition localNetwork : string := "本地网络".

(** The location text that [lookupGeo] makes of an answer: country,
    region and city, those that are not empty, with a space between; the
    unknown region when all three are empty. *)
Definition locationText (info : ipInfo) : string :=
  let parts := [] in
  let parts := if String.eqb (info_Country info) "" then parts
               else (parts ++ [info_Country info])%list in
  let parts := if String.eqb (info_Region info) "" then parts
               else (parts ++ [info_Region info])%list in
  let parts := if String.eqb (info_City info) "" then parts
               else (parts ++ [info_City info])%list in
  let loc := strings.Join parts " " in
  if String.eqb loc "" then unknownRegion else loc.

Section Geo.

(** [isLocalIP] rests on [net.ParseIP] and the address classes of the
    standard library; it is taken as given. *)
Variable isLocalIP : string -> bool.

(** [lookupGeo]: the location and the cache after the call. The response
    is consulted only when the address is neither cached nor local. *)
Definition lookupGeo (ip : string) (resp : GeoResponse) (ipCache : gmap string string)
    : string * gmap string string :=
  match ipCache !! ip with
  | Some val => (val, ipCache)
  | None =>
      if isLocalIP ip then
        let loc := localNetwork in (loc, <[ip := loc]> ipCache)
      else
        match resp with
        | RequestError => (unknownRegion, ipCache)
        | DoError => (unknownRegion, ipCache)
        | BadStatus _ => (unknownRegion, ipCache)
        | DecodeError => (unknownRegion, ipCache)
        | Answer info =>
            let loc := locationText info in (loc, <[ip := loc]> ipCache)
        end
  end.

End Geo.

(** The shortening of the user agent in [generateSVG] and [generatePNG]:
    [if len(ua) > 70 { ua = ua[:67] + "..." }]. *)
Definition shortenUA (ua : string) : string :=
  if (70 <? String.length ua)%nat then String.substring 0 67 ua +:+ "..." else ua.

(** * Properties *)

(** ** Strings *)

Lemma app_nil (s : string) : "" +:+ s = s.
Proof. reflexivity. Qed.

Lemma app_cons (a : ascii) (s t : string) : String a s +:+ t = String a (s +:+ t).
Proof. reflexivity. Qed.

Lemma Split_length (s : string) (sep : ascii) :
  length (strings.Split s sep) = S (strings.Count s sep).
Proof.
  induction s as [|a s IH]; simpl; [reflexivity|].
  destruct (Ascii.eqb a sep); simpl.
  - now rewrite IH.
  - destruct (strings.Split s sep) as [|piece rest]; simpl in *; lia.
Qed.

(** The last piece of a split is what follows the last separator. *)
Lemma Split_last (s : string) (sep : ascii) :
  exists pre last,
    strings.Split s sep !! strings.Count s sep = Some last
    /\ strings.Count last sep = 0%nat
    /\ ((0 < strings.Count s sep)%nat -> s = pre +:+ String sep last)
    /\ (strings.Count s sep = 0%nat -> s = last).
Proof.
  induction s as [|a s (pre & last & Hlk & Hc & Hpos & Hzero)].
  - exists EmptyString, EmptyString. simpl. repeat split; try reflexivity; lia.
  - cbn [strings.Split strings.Count].
    pose proof (Split_length s sep) as HL.
    destruct (Ascii.eqb a sep) eqn:E.
    + apply Ascii.eqb_eq in E; subst a.
      destruct (strings.Count s sep) as [|n] eqn:Hn.
      * exists EmptyString, last.
        split; [exact Hlk|]. split; [exact Hc|]. split; [|discriminate].
        intros _. rewrite app_nil. f_equal. now apply Hzero.
      * exists (String sep pre), last.
        split; [exact Hlk|]. split; [exact Hc|]. split; [|discriminate].
        intros _. rewrite app_cons. f_equal. apply Hpos. lia.
    + destruct (strings.Split s sep) as [|piece rest]; [simpl in HL; lia|].
      destruct (strings.Count s sep) as [|n] eqn:Hn.
      * cbn in Hlk. injection Hlk as ->. specialize (Hzero eq_refl). subst last.
        exists EmptyString, (String a s).
        split; [reflexivity|]. split; [|split; [cbn; lia|reflexivity]].
        cbn. rewrite E. exact Hc.
      * exists (String a pre), last.
        split; [exact Hlk|]. split; [exact Hc|]. split; [|cbn; discriminate].
        intros _. rewrite app_cons. f_equal. apply Hpos. lia.
Qed.

Lemma ReplaceAll_delete (s : string) (old : ascii) :
  strings.ReplaceAll s old "" =
  string_of_list_ascii
    (List.filter (fun a => negb (Ascii.eqb a old)) (list_ascii_of_string s)).
Proof.
  induction s as [|a s IH]; simpl; [reflexivity|].
  destruct (Ascii.eqb a old); simpl; now rewrite IH.
Qed.

Lemma substring_all (s : string) : String.substring 0 (String.length s) s = s.
Proof. induction s; simpl; congruence. Qed.

(** [s[i:]] is the suffix of [s] that leaves out its first [i] bytes. *)
Lemma slice_from_suffix (s : string) (i : nat) :
  (i <= String.length s)%nat ->
  exists front,
    s = front +:+ slice_from s i
    /\ String.length front = i
    /\ String.length (slice_from s i) = (String.length s - i)%nat.
Proof.
  unfold slice_from. revert i.
  induction s as [|a s IH]; intros i Hi.
  - simpl in Hi. assert (i = 0%nat) by lia; subst. exists EmptyString. auto.
  - destruct i as [|i].
    + exists EmptyString. rewrite app_nil, Nat.sub_0_r, substring_all. auto.
    + simpl in Hi. destruct (IH i) as (front & E & Hf & Hl); [lia|].
      exists (String a front).
      change (String.substring (S i) (String.length (String a s) - S i) (String a s))
        with (String.substring i (String.length s - i) s).
      rewrite app_cons, <- E. simpl. auto.
Qed.

(** ** IP masking *)

Lemma maskIP_dotted (ip : string) :
  strings.Count ip "." = 3%nat ->
  exists pre last,
    ip = pre +:+ "." +:+ last
    /\ strings.Count last "." = 0%nat
    /\ maskIP ip = Some ("x.x.x." +:+ last).
Proof.
  intros H3. unfold maskIP. rewrite H3. simpl.
  destruct (Split_last ip ".") as (pre & last & Hlk & Hc & Hpos & _).
  rewrite H3 in Hlk, Hpos. exists pre, last.
  split; [apply Hpos; lia|]. split; [exact Hc|].
  rewrite Hlk. reflexivity.
Qed.

(** C4. [maskIP] on an input with exactly three dots is ["x.x.x."] and the
    text after the last dot; on any other input with a colon it is ["..."]
    and the input without its colons, cut to its last 8 bytes when longer
    than 8; any other input comes back as it is. In particular
    ["203.0.113.77"] masks to ["x.x.x.77"]. *)
Theorem maskIP_spec (ip : string) :
  (strings.Count ip "." = 3%nat ->
     exists pre last,
       ip = pre +:+ "." +:+ last
       /\ strings.Count last "." = 0%nat
       /\ maskIP ip = Some ("x.x.x." +:+ last))
  /\ (strings.Count ip "." <> 3%nat -> strings.Contains ip ":" = true ->
      let stripped :=
        string_of_list_ascii
          (List.filter (fun a => negb (Ascii.eqb a ":")) (list_ascii_of_string ip)) in
      ((8 < String.length stripped)%nat ->
         exists front tail,
           stripped = front +:+ tail
           /\ String.length tail = 8%nat
           /\ maskIP ip = Some ("..." +:+ tail))
      /\ ((String.length stripped <= 8)%nat -> maskIP ip = Some ("..." +:+ stripped)))
  /\ (strings.Count ip "." <> 3%nat -> strings.Contains ip ":" = false ->
      maskIP ip = Some ip)
  /\ maskIP "203.0.113.77" = Some "x.x.x.77".
Proof.
  split; [apply maskIP_dotted|].
  split; [|split; [|reflexivity]].
  - intros Hn Hc. cbv zeta. unfold maskIP.
    apply Nat.eqb_neq in Hn. rewrite Hn, Hc, ReplaceAll_delete.
    set (stripped := string_of_list_ascii _).
    split; intros Hlen.
    + apply Nat.ltb_lt in Hlen as Hb. rewrite Hb.
      destruct (slice_from_suffix stripped (String.length stripped - 8)) as (front & E & _ & Hl);
        [lia|].
      exists front, (slice_from stripped (String.length stripped - 8)).
      split; [exact E|]. split; [lia|reflexivity].
    + apply Nat.ltb_ge in Hlen. now rewrite Hlen.
  - intros Hn Hc. unfold maskIP. apply Nat.eqb_neq in Hn. now rewrite Hn, Hc.
Qed.

(** C10. An input with exactly three dots is masked by the dotted-quad
    rule even when it also holds colons: the dots are counted before the
    colons are looked for. *)
Theorem maskIP_dots_before_colons (ip : string) :
  strings.Count ip "." = 3%nat ->
  strings.Contains ip ":" = true ->
  exists pre last,
    ip = pre +:+ "." +:+ last
    /\ strings.Count last "." = 0%nat
    /\ maskIP ip = Some ("x.x.x." +:+ last)
    /\ maskIP ip <> Some ("..." +:+ slice_from (strings.ReplaceAll ip ":" "")
                                     (String.length (strings.ReplaceAll ip ":" "") - 8))
    /\ maskIP ip <> Some ("..." +:+ strings.ReplaceAll ip ":" "").
Proof.
  intros H3 _.
  destruct (maskIP_dotted ip H3) as (pre & last & E & Hc & Hm).
  exists pre, last. rewrite Hm.
  split; [exact E|]. split; [exact Hc|]. split; [reflexivity|].
  split; intros Heq; discriminate Heq.
Qed.

Lemma maskIP_dots_before_colons_witness :
  strings.Count "::ffff:203.0.113.77" "." = 3%nat
  /\ strings.Contains "::ffff:203.0.113.77" ":" = true
  /\ maskIP "::ffff:203.0.113.77" = Some "x.x.x.77"
  /\ exists pre last,
       "::ffff:203.0.113.77" = pre +:+ "." +:+ last
       /\ strings.Count last "." = 0%nat
       /\ maskIP "::ffff:203.0.113.77" = Some ("x.x.x." +:+ last)
       /\ maskIP "::ffff:203.0.113.77" <>
            Some ("..." +:+ slice_from (strings.ReplaceAll "::ffff:203.0.113.77" ":" "")
                    (String.length (strings.ReplaceAll "::ffff:203.0.113.77" ":" "") - 8))
       /\ maskIP "::ffff:203.0.113.77" <>
            Some ("..." +:+ strings.ReplaceAll "::ffff:203.0.113.77" ":" "").
Proof.
  split; [reflexivity|]. split; [reflexivity|]. split; [reflexivity|].
  apply (maskIP_dots_before_colons "::ffff:203.0.113.77"); reflexivity.
Defined.

(** ** The alert flags *)

Lemma alertFlag_insert (sent : gmap string bool) (key : string) (b : bool) :
  alertFlag (<[key := b]> sent) key = b.
Proof. unfold alertFlag. now rewrite lookup_insert_eq. Qed.

(** A check is one of three things, by the two comparisons and the flag. *)
Lemma alertCheck_cases (key : string) (text : float64 -> string)
    (value : float64) (threshold : Z) (sent : gmap string bool) :
  let above := Fgt value (float64_of_int threshold) in
  let below := Fle value (float64_of_int (wrap64 (threshold - 10))) in
  (above = true /\ alertFlag sent key = false
   /\ alertCheck key text value threshold sent = (<[key := true]> sent, [text value]))
  \/ ((above = false \/ alertFlag sent key = true) /\ below = true
      /\ alertCheck key text value threshold sent = (<[key := false]> sent, []))
  \/ ((above = false \/ alertFlag sent key = true) /\ below = false
      /\ alertCheck key text value threshold sent = (sent, [])).
Proof.
  cbv zeta. unfold alertCheck.
  destruct (Fgt value (float64_of_int threshold)) eqn:Ha;
    destruct (alertFlag sent key) eqn:Hf;
    destruct (Fle value (float64_of_int (wrap64 (threshold - 10)))) eqn:Hb;
    simpl; auto 10.
Qed.

(** A check writes the entry of its own key only. *)
Lemma alertCheck_frame (key other : string) (text : float64 -> string)
    (value : float64) (threshold : Z) (sent : gmap string bool) :
  other <> key ->
  fst (alertCheck key text value threshold sent) !! other = sent !! other.
Proof.
  intros Hne.
  destruct (alertCheck_cases key text value threshold sent)
    as [(_ & _ & ->)|[(_ & _ & ->)|(_ & _ & ->)]]; simpl;
    try rewrite lookup_insert_ne; auto.
Qed.

(** What a check does depends on the map through the flag of its key only. *)
Lemma alertCheck_flag_only (key : string) (text : float64 -> string)
    (value : float64) (threshold : Z) (sent sent' : gmap string bool) :
  alertFlag sent key = alertFlag sent' key ->
  alertFlag (fst (alertCheck key text value threshold sent)) key
  = alertFlag (fst (alertCheck key text value threshold sent')) key
  /\ snd (alertCheck key text value threshold sent)
     = snd (alertCheck key text value threshold sent').
Proof.
  intros Hf. unfold alertCheck. rewrite Hf.
  destruct (Fgt value (float64_of_int threshold) && negb (alertFlag sent' key)); simpl.
  - now rewrite !alertFlag_insert.
  - destruct (Fle value (float64_of_int (wrap64 (threshold - 10)))); simpl; auto.
    now rewrite !alertFlag_insert.
Qed.

(** A tick runs the CPU check and the memory check side by side: each
    reads and writes the flag of its own key only. *)
Lemma realTimeAlertTick_independent (p : Probe) (m : ServerMonitor) :
  let m' := fst (realTimeAlertTick p m) in
  let cpu := alertCheck "cpu" cpuAlertText (getCPUUsage p)
                        (CPUThreshold (config m)) (alertSent m) in
  let mem := alertCheck "mem" memAlertText (mem_UsedPercent (getMemoryInfo p))
                        (MemThreshold (config m)) (alertSent m) in
  alertFlag (alertSent m') "cpu" = alertFlag (fst cpu) "cpu"
  /\ alertFlag (alertSent m') "mem" = alertFlag (fst mem) "mem"
  /\ snd (realTimeAlertTick p m) = (snd cpu ++ snd mem)%list.
Proof.
  cbv zeta. unfold realTimeAlertTick.
  destruct (alertCheck "cpu" cpuAlertText (getCPUUsage p)
              (CPUThreshold (config m)) (alertSent m)) as [sent1 out1] eqn:E1.
  destruct (alertCheck "mem" memAlertText (mem_UsedPercent (getMemoryInfo p))
              (MemThreshold (config m)) sent1) as [sent2 out2] eqn:E2.
  simpl.
  assert (Hcpu : alertFlag sent2 "cpu" = alertFlag sent1 "cpu").
  { unfold alertFlag.
    replace sent2 with
      (fst (alertCheck "mem" memAlertText (mem_UsedPercent (getMemoryInfo p))
              (MemThreshold (config m)) sent1)) by (now rewrite E2).
    rewrite alertCheck_frame; [reflexivity|discriminate]. }
  assert (Hmem : alertFlag sent1 "mem" = alertFlag (alertSent m) "mem").
  { unfold alertFlag.
    replace sent1 with
      (fst (alertCheck "cpu" cpuAlertText (getCPUUsage p)
              (CPUThreshold (config m)) (alertSent m))) by (now rewrite E1).
    rewrite alertCheck_frame; [reflexivity|discriminate]. }
  destruct (alertCheck_flag_only "mem" memAlertText (mem_UsedPercent (getMemoryInfo p))
              (MemThreshold (config m)) sent1 (alertSent m) Hmem) as [Hfl Hout].
  rewrite E2 in Hfl, Hout. simpl in Hfl, Hout.
  split; [exact Hcpu|split; [exact Hfl|now rewrite Hout]].
Qed.


(** ** Rounding to binary64 *)

Lemma Qlt_bool_iff (x y : Q) : Qlt_bool x y = true <-> (x < y)%Q.
Proof.
  unfold Qlt_bool. rewrite negb_true_iff.
  destruct (Qle_bool y x) eqn:E.
  - apply Qle_bool_iff in E. split; [discriminate|lra].
  - split; [intros _|reflexivity].
    apply Qnot_le_lt. intros H. apply Qle_bool_iff in H. congruence.
Qed.

Lemma Qlt_bool_false (x y : Q) : Qlt_bool x y = false <-> (y <= x)%Q.
Proof.
  unfold Qlt_bool. rewrite negb_false_iff. apply Qle_bool_iff.
Qed.

Lemma Qle_bool_false (x y : Q) : Qle_bool x y = false <-> (y < x)%Q.
Proof.
  destruct (Qle_bool x y) eqn:E.
  - apply Qle_bool_iff in E. split; [discriminate|lra].
  - split; [intros _|reflexivity].
    apply Qnot_le_lt. intros H. apply Qle_bool_iff in H. congruence.
Qed.

Lemma Qpow2_pos (e : Z) : (0 < Qpow2 e)%Q.
Proof. apply Qpower_0_lt. reflexivity. Qed.

Lemma Qpow2_add (a b : Z) : (Qpow2 (a + b) == Qpow2 a * Qpow2 b)%Q.
Proof. apply Qpower_plus. discriminate. Qed.

Lemma Qpow2_sub (a b : Z) : (Qpow2 (a - b) == Qpow2 a / Qpow2 b)%Q.
Proof. apply Qpower_minus. discriminate. Qed.

Lemma Qpow2_le (a b : Z) : a <= b -> (Qpow2 a <= Qpow2 b)%Q.
Proof. intros H. apply Qpower_le_compat_l; [exact H|discriminate]. Qed.

Lemma Qpow2_lt_inv (a b : Z) : (Qpow2 a < Qpow2 b)%Q -> a < b.
Proof. intros H. apply (Qpower_lt_compat_l_inv 2); [exact H|reflexivity]. Qed.

Lemma Qpow2_nonneg_inject (e : Z) : 0 <= e -> (Qpow2 e == inject_Z (2 ^ e))%Q.
Proof. intros H. unfold Qpow2. now rewrite Zpower_Qpower. Qed.

Lemma Qlog2_spec (a : Q) :
  (0 < a)%Q -> (Qpow2 (Qlog2 a) <= a)%Q /\ (a < Qpow2 (Qlog2 a + 1))%Q.
Proof.
  intros Ha. destruct a as [n d].
  assert (Hn : 0 < n) by (unfold Qlt in Ha; simpl in Ha; lia).
  unfold Qlog2. cbn [Qnum Qden].
  set (ln := Z.log2 n). set (ld := Z.log2 (Z.pos d)).
  assert (Hln : 2 ^ ln <= n < 2 ^ (ln + 1))
    by (unfold ln; pose proof (Z.log2_spec n Hn); rewrite <- Z.add_1_r in *; lia).
  assert (Hld : 2 ^ ld <= Z.pos d < 2 ^ (ld + 1))
    by (unfold ld; pose proof (Z.log2_spec (Z.pos d) eq_refl);
        rewrite <- Z.add_1_r in *; lia).
  assert (H0n : 0 <= ln) by apply Z.log2_nonneg.
  assert (H0d : 0 <= ld) by apply Z.log2_nonneg.
  set (q := n # d) in *.
  assert (Eq : (q * inject_Z (Z.pos d) == inject_Z n)%Q).
  { unfold q, Qeq, inject_Z. simpl. lia. }
  assert (B1 : (inject_Z n < Qpow2 (ln + 1))%Q)
    by (rewrite Qpow2_nonneg_inject by lia; rewrite <- Zlt_Qlt; lia).
  assert (B2 : (Qpow2 ln <= inject_Z n)%Q)
    by (rewrite Qpow2_nonneg_inject by lia; rewrite <- Zle_Qle; lia).
  assert (B3 : (inject_Z (Z.pos d) < Qpow2 (ld + 1))%Q)
    by (rewrite Qpow2_nonneg_inject by lia; rewrite <- Zlt_Qlt; lia).
  assert (B4 : (Qpow2 ld <= inject_Z (Z.pos d))%Q)
    by (rewrite Qpow2_nonneg_inject by lia; rewrite <- Zle_Qle; lia).
  pose proof (Qpow2_pos ld) as P1. pose proof (Qpow2_pos (ld + 1)) as P2.
  pose proof (Qpow2_pos ln) as P3.
  assert (Hup : (q < Qpow2 (ln - ld + 1))%Q).
  { replace (ln - ld + 1) with ((ln + 1) - ld) by lia. rewrite Qpow2_sub.
    apply Qlt_shift_div_l; [exact P1|]. nra. }
  assert (Hlow : (Qpow2 (ln - ld - 1) < q)%Q).
  { replace (ln - ld - 1) with (ln - (ld + 1)) by lia. rewrite Qpow2_sub.
    apply Qlt_shift_div_r; [exact P2|]. nra. }
  destruct (Qle_bool (Qpow2 (ln - ld)) q) eqn:E.
  - apply Qle_bool_iff in E. split; assumption.
  - apply Qle_bool_false in E.
    replace (ln - ld - 1 + 1) with (ln - ld) by lia. split; [lra|assumption].
Qed.

Lemma Qlog2_mono (a b : Q) : (0 < a)%Q -> (a <= b)%Q -> Qlog2 a <= Qlog2 b.
Proof.
  intros Ha Hab.
  destruct (Qlog2_spec a Ha) as [La _].
  destruct (Qlog2_spec b) as [_ Ub]; [lra|].
  assert (H : Qlog2 a < Qlog2 b + 1) by (apply Qpow2_lt_inv; lra).
  lia.
Qed.

(** *** Rounding to the nearest integer *)

Lemma round_half_even_bounds (q : Q) :
  (inject_Z (round_half_even q) - (1 # 2) <= q)%Q
  /\ (q <= inject_Z (round_half_even q) + (1 # 2))%Q.
Proof.
  unfold round_half_even.
  pose proof (Qfloor_le q) as Hl. pose proof (Qlt_floor q) as Hu.
  rewrite inject_Z_plus in Hu. change (inject_Z 1) with 1%Q in Hu.
  destruct (Qcompare_spec (q - inject_Z (Qfloor q)) (1 # 2)) as [E|E|E];
    [destruct (Z.even (Qfloor q))|..]; rewrite ?inject_Z_plus;
    change (inject_Z 1) with 1%Q; split; lra.
Qed.

Lemma round_half_even_mono (x y : Q) :
  (x <= y)%Q -> round_half_even x <= round_half_even y.
Proof.
  intros Hxy. pose proof (Qfloor_resp_le x y Hxy) as Hf.
  pose proof (Qfloor_le x) as Hxl. pose proof (Qlt_floor x) as Hxu.
  pose proof (Qfloor_le y) as Hyl. pose proof (Qlt_floor y) as Hyu.
  rewrite inject_Z_plus in Hxu, Hyu. change (inject_Z 1) with 1%Q in Hxu, Hyu.
  unfold round_half_even.
  destruct (Z.eq_dec (Qfloor x) (Qfloor y)) as [E|N].
  - rewrite <- E in *.
    destruct (Qcompare_spec (x - inject_Z (Qfloor x)) (1 # 2)) as [Ex|Ex|Ex];
      destruct (Qcompare_spec (y - inject_Z (Qfloor x)) (1 # 2)) as [Ey|Ey|Ey];
      try destruct (Z.even (Qfloor x)); try lia; exfalso; lra.
  - assert (Hlt : Qfloor x + 1 <= Qfloor y) by lia.
    destruct (Qcompare_spec (x - inject_Z (Qfloor x)) (1 # 2)) as [Ex|Ex|Ex];
      destruct (Qcompare_spec (y - inject_Z (Qfloor y)) (1 # 2)) as [Ey|Ey|Ey];
      try destruct (Z.even (Qfloor x)); try destruct (Z.even (Qfloor y)); lia.
Qed.

Lemma round_half_even_int (n : Z) : round_half_even (inject_Z n) = n.
Proof.
  unfold round_half_even. rewrite Qfloor_Z.
  destruct (Qcompare_spec (inject_Z n - inject_Z n) (1 # 2)) as [E|E|E];
    [exfalso; lra|reflexivity|exfalso; lra].
Qed.

Lemma round_half_even_comp (x y : Q) : (x == y)%Q -> round_half_even x = round_half_even y.
Proof.
  intros E. apply Z.le_antisymm; apply round_half_even_mono; lra.
Qed.

Lemma rounded_mag_nonneg (a : Q) : (0 <= a)%Q -> (0 <= rounded_mag a)%Q.
Proof.
  intros Ha. unfold rounded_mag.
  pose proof (Qpow2_pos (ulp_exp a)) as Hp.
  assert (H0 : 0 <= round_half_even (a / Qpow2 (ulp_exp a))).
  { rewrite <- (round_half_even_int 0). apply round_half_even_mono.
    apply Qle_shift_div_l; [exact Hp|]. change (inject_Z 0) with 0%Q. lra. }
  rewrite Zle_Qle in H0. change (inject_Z 0) with 0%Q in H0. nra.
Qed.

Lemma rounded_mag_mono (a b : Q) :
  (0 < a)%Q -> (a <= b)%Q -> (rounded_mag a <= rounded_mag b)%Q.
Proof.
  intros Ha Hab. assert (Hb : (0 < b)%Q) by lra.
  pose proof (Qlog2_mono a b Ha Hab) as Hlog.
  destruct (Qlog2_spec a Ha) as [La Ua]. destruct (Qlog2_spec b Hb) as [Lb Ub].
  unfold rounded_mag.
  set (ua := ulp_exp a). set (ub := ulp_exp b).
  assert (Hu : ua <= ub) by (unfold ua, ub, ulp_exp; lia).
  pose proof (Qpow2_pos ua) as Pa. pose proof (Qpow2_pos ub) as Pb.
  destruct (Z.eq_dec ua ub) as [E|N].
  - rewrite <- E.
    assert (H : round_half_even (a / Qpow2 ua) <= round_half_even (b / Qpow2 ua)).
    { apply round_half_even_mono. apply Qmult_le_compat_r; [exact Hab|].
      apply Qlt_le_weak, Qinv_lt_0_compat, Pa. }
    rewrite Zle_Qle in H. nra.
  - assert (Hlt : ua + 1 <= ub) by lia.
    (* a rounds to at most 2^(ua+53), b to at least 2^(ub+52) *)
    assert (Ha53 : round_half_even (a / Qpow2 ua) <= 2 ^ 53).
    { rewrite <- (round_half_even_int (2 ^ 53)). apply round_half_even_mono.
      apply Qle_shift_div_r; [exact Pa|].
      rewrite <- (Qpow2_nonneg_inject 53) by lia. rewrite <- Qpow2_add.
      apply Qlt_le_weak. eapply Qlt_le_trans; [exact Ua|].
      apply Qpow2_le. unfold ua, ulp_exp. lia. }
    assert (Hb52 : 2 ^ 52 <= round_half_even (b / Qpow2 ub)).
    { rewrite <- (round_half_even_int (2 ^ 52)). apply round_half_even_mono.
      apply Qle_shift_div_l; [exact Pb|].
      rewrite <- (Qpow2_nonneg_inject 52) by lia. rewrite <- Qpow2_add.
      eapply Qle_trans; [|exact Lb].
      apply Qpow2_le. unfold ua, ub, ulp_exp in *. lia. }
    rewrite Zle_Qle in Ha53, Hb52.
    rewrite <- (Qpow2_nonneg_inject 53) in Ha53 by lia.
    rewrite <- (Qpow2_nonneg_inject 52) in Hb52 by lia.
    assert (Hmid : (Qpow2 53 * Qpow2 ua <= Qpow2 52 * Qpow2 ub)%Q).
    { rewrite <- !Qpow2_add. apply Qpow2_le. lia. }
    pose proof (Qpow2_pos 53). pose proof (Qpow2_pos 52).
    nra.
Qed.
Lemma binary64_round_eq (q : Q) :
  binary64_round q =
  if Qeq_bool q 0 then FFin 0
  else if Qle_bool (Qpow2 1024) (rounded_mag (Qabs q)) then FInf (Qlt_bool q 0)
  else FFin (if Qlt_bool q 0 then - rounded_mag (Qabs q) else rounded_mag (Qabs q))%Q.
Proof. reflexivity. Qed.

Ltac bool_to_Q :=
  repeat match goal with
  | H : Qeq_bool _ _ = true |- _ => apply Qeq_bool_iff in H
  | H : Qeq_bool _ _ = false |- _ => apply Qeq_bool_neq in H
  | H : Qlt_bool _ _ = true |- _ => apply Qlt_bool_iff in H
  | H : Qlt_bool _ _ = false |- _ => apply Qlt_bool_false in H
  | H : Qle_bool _ _ = true |- _ => apply Qle_bool_iff in H
  | H : Qle_bool _ _ = false |- _ => apply Qle_bool_false in H
  | |- Qle_bool _ _ = true => apply Qle_bool_iff
  | |- Qle_bool _ _ = false => apply Qle_bool_false
  | |- Qlt_bool _ _ = true => apply Qlt_bool_iff
  | |- Qlt_bool _ _ = false => apply Qlt_bool_false
  end.

Lemma Qabs_of_pos (q : Q) : (0 <= q)%Q -> (Qabs q == q)%Q.
Proof. apply Qabs_pos. Qed.

Lemma Qabs_of_neg (q : Q) : (q <= 0)%Q -> (Qabs q == - q)%Q.
Proof. apply Qabs_neg. Qed.

(** Rounding to binary64 is monotone. *)
Lemma binary64_round_mono (x y : Q) :
  (x <= y)%Q -> Fle (binary64_round x) (binary64_round y) = true.
Proof.
  intros Hxy. rewrite !binary64_round_eq.
  pose proof (rounded_mag_nonneg (Qabs x) (Qabs_nonneg x)) as Mx.
  pose proof (rounded_mag_nonneg (Qabs y) (Qabs_nonneg y)) as My.
  assert (Hneg : (x < 0)%Q -> (y < 0)%Q ->
                 (rounded_mag (Qabs y) <= rounded_mag (Qabs x))%Q).
  { intros Hx Hy. pose proof (Qabs_of_neg x) as Ax. pose proof (Qabs_of_neg y) as Ay.
    apply rounded_mag_mono; lra. }
  assert (Hpos : (0 <= x)%Q -> ~ (x == 0)%Q ->
                 (rounded_mag (Qabs x) <= rounded_mag (Qabs y))%Q).
  { intros Hx Hx0. pose proof (Qabs_of_pos x) as Ax. pose proof (Qabs_of_pos y) as Ay.
    assert (0 < x)%Q by (destruct (Qle_lt_or_eq _ _ Hx) as [H|H]; [exact H|]; exfalso; apply Hx0; lra).
    apply rounded_mag_mono; lra. }
  destruct (Qeq_bool x 0) eqn:Ex0; destruct (Qeq_bool y 0) eqn:Ey0;
    destruct (Qlt_bool x 0) eqn:Exn; destruct (Qlt_bool y 0) eqn:Eyn;
    destruct (Qle_bool (Qpow2 1024) (rounded_mag (Qabs x))) eqn:Bx;
    destruct (Qle_bool (Qpow2 1024) (rounded_mag (Qabs y))) eqn:By;
    cbn [Fle negb orb andb]; try reflexivity; bool_to_Q; try lra.
  all: try (exfalso; lra).
  all: try (specialize (Hneg Exn Eyn); try lra; exfalso; lra).
  all: specialize (Hpos Exn Ex0); try lra; exfalso; lra.
Qed.

(** Comparisons of floats chain as those of the reals do. *)
Lemma Fle_Flt_trans (a b c : float64) :
  Fle a b = true -> Flt b c = true -> Flt a c = true.
Proof.
  destruct a as [|[]|x], b as [|[]|y], c as [|[]|z]; cbn; try congruence; try reflexivity.
  intros; bool_to_Q; lra.
Qed.

Lemma Flt_Fle_trans (a b c : float64) :
  Flt a b = true -> Fle b c = true -> Flt a c = true.
Proof.
  destruct a as [|[]|x], b as [|[]|y], c as [|[]|z]; cbn; try congruence; try reflexivity.
  intros; bool_to_Q; lra.
Qed.

Lemma Flt_not_Fle (a b : float64) : Flt a b = true -> Fle b a = false.
Proof.
  destruct a as [|[]|x], b as [|[]|y]; cbn; try congruence; try reflexivity.
  intros; bool_to_Q; lra.
Qed.

(** [float64(n)] keeps the order of the integers. *)
Lemma float64_of_int_mono (a b : Z) :
  a <= b -> Fle (float64_of_int a) (float64_of_int b) = true.
Proof.
  intros H. apply binary64_round_mono. now rewrite <- Zle_Qle.
Qed.

Lemma rounded_mag_one : (rounded_mag 1 == 1)%Q.
Proof. vm_compute. reflexivity. Qed.

(** [float64(n)] of a negative integer is below every float that is at
    least zero. *)
Lemma float64_of_int_negative (n : Z) (v : float64) :
  n < 0 -> Fle zeroF v = true -> Fle v (float64_of_int n) = false.
Proof.
  intros Hn Hv. unfold float64_of_int. rewrite binary64_round_eq.
  assert (Hq : (inject_Z n <= -1)%Q)
    by (change (-1)%Q with (inject_Z (-1)); rewrite <- Zle_Qle; lia).
  assert (Hm : (1 <= rounded_mag (Qabs (inject_Z n)))%Q).
  { rewrite <- rounded_mag_one. pose proof (Qabs_of_neg (inject_Z n)).
    apply rounded_mag_mono; lra. }
  destruct (Qeq_bool (inject_Z n) 0) eqn:E0; [bool_to_Q; exfalso; lra|].
  assert (En : Qlt_bool (inject_Z n) 0 = true) by (bool_to_Q; lra).
  rewrite En.
  destruct (Qle_bool (Qpow2 1024) (rounded_mag (Qabs (inject_Z n))));
    destruct v as [|[]|q]; cbn in *; try congruence.
  bool_to_Q. lra.
Qed.
Lemma wrap64_id (z : Z) : in_int64 z -> wrap64 z = z.
Proof.
  unfold in_int64, min_int64, max_int64, wrap64. intros H.
  rewrite Z.mod_small; lia.
Qed.

(** With the flag set, a value that is at least zero clears nothing when
    the threshold is below 10 and the subtraction does not wrap around. *)
Lemma alertCheck_low_threshold (key : string) (text : float64 -> string)
    (value : float64) (threshold : Z) (sent : gmap string bool) :
  min_int64 + 10 <= threshold -> threshold < 10 ->
  Fle zeroF value = true ->
  alertFlag sent key = true ->
  alertCheck key text value threshold sent = (sent, []).
Proof.
  intros Hlo Hhi Hv Hf. unfold alertCheck. rewrite Hf, andb_false_r.
  rewrite wrap64_id by (unfold in_int64, min_int64, max_int64 in *; lia).
  rewrite float64_of_int_negative; auto. lia.
Qed.

Lemma realTimeAlertTick_config (p : Probe) (m : ServerMonitor) :
  config (fst (realTimeAlertTick p m)) = config m.
Proof.
  unfold realTimeAlertTick.
  destruct (alertCheck "cpu" _ _ _ _) as [sent1 out1].
  destruct (alertCheck "mem" _ _ _ _) as [sent2 out2]. reflexivity.
Qed.

Lemma startRealTimeAlert_cpu_stays (ticks : list Probe) (m : ServerMonitor) :
  min_int64 + 10 <= CPUThreshold (config m) -> CPUThreshold (config m) < 10 ->
  Forall (fun p => Fle zeroF (getCPUUsage p) = true) ticks ->
  alertFlag (alertSent m) "cpu" = true ->
  alertFlag (alertSent (fst (startRealTimeAlert ticks m))) "cpu" = true.
Proof.
  intros Hlo Hhi Hticks. revert m Hlo Hhi.
  induction Hticks as [|p rest Hp Hrest IH]; intros m Hlo Hhi Hf; simpl; [exact Hf|].
  pose proof (realTimeAlertTick_config p m) as Hc.
  destruct (realTimeAlertTick_independent p m) as (Hcpu & _ & _).
  destruct (realTimeAlertTick p m) as [m1 out1]. simpl in Hc, Hcpu.
  specialize (IH m1). destruct (startRealTimeAlert rest m1) as [m2 out2]. simpl in *.
  apply IH; rewrite ?Hc; auto.
  rewrite Hcpu, alertCheck_low_threshold; auto.
Qed.

Lemma startRealTimeAlert_mem_stays (ticks : list Probe) (m : ServerMonitor) :
  min_int64 + 10 <= MemThreshold (config m) -> MemThreshold (config m) < 10 ->
  Forall (fun p => Fle zeroF (mem_UsedPercent (getMemoryInfo p)) = true) ticks ->
  alertFlag (alertSent m) "mem" = true ->
  alertFlag (alertSent (fst (startRealTimeAlert ticks m))) "mem" = true.
Proof.
  intros Hlo Hhi Hticks. revert m Hlo Hhi.
  induction Hticks as [|p rest Hp Hrest IH]; intros m Hlo Hhi Hf; simpl; [exact Hf|].
  pose proof (realTimeAlertTick_config p m) as Hc.
  destruct (realTimeAlertTick_independent p m) as (_ & Hmem & _).
  destruct (realTimeAlertTick p m) as [m1 out1]. simpl in Hc, Hmem.
  specialize (IH m1). destruct (startRealTimeAlert rest m1) as [m2 out2]. simpl in *.
  apply IH; rewrite ?Hc; auto.
  rewrite Hmem, alertCheck_low_threshold; auto.
Qed.

(** C5, as the code has it. For a threshold below 10 whose subtraction
    of 10 does not wrap around ([min_int64 + 10 <= threshold]) and values
    that are at least zero, a flag that is set stays set: every check is
    [NoTransition], none is [Cleared], nothing is sent. The same holds of
    the CPU flag and of the memory flag over any run of the loop. *)
Theorem low_threshold_never_clears (key : string) (text : float64 -> string)
    (threshold : Z) (values : list float64) (sent : gmap string bool) :
  min_int64 + 10 <= threshold -> threshold < 10 ->
  Forall (fun v => Fle zeroF v = true) values ->
  alertFlag sent key = true ->
  alertFlag (fst (runChecks key text threshold values sent)) key = true
  /\ Forall (fun r => r = (NoTransition, [])) (snd (runChecks key text threshold values sent))
  /\ Forall (fun r => fst r <> Cleared) (snd (runChecks key text threshold values sent))
  /\ (forall (ticks : list Probe) (m : ServerMonitor),
        CPUThreshold (config m) = threshold ->
        Forall (fun p => Fle zeroF (getCPUUsage p) = true) ticks ->
        alertFlag (alertSent m) "cpu" = true ->
        alertFlag (alertSent (fst (startRealTimeAlert ticks m))) "cpu" = true)
  /\ (forall (ticks : list Probe) (m : ServerMonitor),
        MemThreshold (config m) = threshold ->
        Forall (fun p => Fle zeroF (mem_UsedPercent (getMemoryInfo p)) = true) ticks ->
        alertFlag (alertSent m) "mem" = true ->
        alertFlag (alertSent (fst (startRealTimeAlert ticks m))) "mem" = true).
Proof.
  intros Hlo Hhi Hvs Hf.
  assert (Hrun :
    alertFlag (fst (runChecks key text threshold values sent)) key = true
    /\ Forall (fun r => r = (NoTransition, [])) (snd (runChecks key text threshold values sent))
    /\ Forall (fun r => fst r <> Cleared) (snd (runChecks key text threshold values sent))).
  { induction Hvs as [|v rest Hv Hrest IH]; simpl.
    - auto.
    - unfold evaluate. rewrite (alertCheck_low_threshold key text v threshold sent) by auto.
      simpl. destruct (runChecks key text threshold rest sent) as [sent2 trs] eqn:E.
      simpl in *. destruct IH as (I1 & I2 & I3). rewrite Hf. simpl.
      split; [exact I1|]. split; constructor; auto. }
  destruct Hrun as (R1 & R2 & R3).
  split; [exact R1|]. split; [exact R2|]. split; [exact R3|].
  split; intros ticks m Ht Hticks Hm.
  - apply startRealTimeAlert_cpu_stays; rewrite ?Ht; auto.
  - apply startRealTimeAlert_mem_stays; rewrite ?Ht; auto.
Qed.

Lemma low_threshold_never_clears_witness :
  alertFlag (fst (runChecks "cpu" cpuAlertText 5 [FFin 0; FFin 3; FFin 100] {["cpu" := true]})) "cpu" = true
  /\ Forall (fun r => r = (NoTransition, []))
       (snd (runChecks "cpu" cpuAlertText 5 [FFin 0; FFin 3; FFin 100] {["cpu" := true]})).
Proof.
  destruct (low_threshold_never_clears "cpu" cpuAlertText 5 [FFin 0; FFin 3; FFin 100]
              {["cpu" := true]}) as (H1 & H2 & _).
  - unfold min_int64. lia.
  - lia.
  - repeat constructor.
  - reflexivity.
  - exact (conj H1 H2).
Defined.

(** At the smallest [int] the subtraction wraps around to a large positive
    bound, and a set flag is cleared by any ordinary value. *)
Lemma low_threshold_never_clears_counterexample :
  in_int64 min_int64
  /\ min_int64 < 10
  /\ Fle zeroF (FFin 50) = true /\ Fle (FFin 50) (FFin 100) = true
  /\ alertFlag ({["cpu" := true]} : gmap string bool) "cpu" = true
  /\ evaluate "cpu" cpuAlertText (FFin 50) min_int64 {["cpu" := true]} = Cleared
  /\ alertFlag (fst (alertCheck "cpu" cpuAlertText (FFin 50) min_int64 {["cpu" := true]})) "cpu"
     = false.
Proof.
  split; [unfold in_int64, min_int64, max_int64; lia|].
  split; [unfold min_int64; lia|].
  repeat split; vm_compute; reflexivity.
Qed.
(** While the flag is set, a value above the threshold changes nothing,
    provided the subtraction of 10 does not wrap around. *)
Lemma alertCheck_still_above (key : string) (text : float64 -> string)
    (value : float64) (threshold : Z) (sent : gmap string bool) :
  min_int64 + 10 <= threshold <= max_int64 ->
  Fgt value (float64_of_int threshold) = true ->
  alertFlag sent key = true ->
  alertCheck key text value threshold sent = (sent, []).
Proof.
  intros Hr Hv Hf. unfold alertCheck. rewrite Hf, andb_false_r.
  rewrite wrap64_id by (unfold in_int64, min_int64, max_int64 in *; lia).
  rewrite Flt_not_Fle; [reflexivity|].
  apply Fle_Flt_trans with (float64_of_int threshold); [|exact Hv].
  apply float64_of_int_mono. lia.
Qed.

(** C6, as the code has it. For a threshold whose subtraction of 10 does
    not wrap around and a value above it, the first check on a clear flag
    is [Fired] and sends the one message; every later check with that
    value or a higher one, as long as the flag is set, is [NoTransition]
    and sends nothing, and the flag stays set. *)
Theorem fire_once (key : string) (text : float64 -> string)
    (value : float64) (threshold : Z) (later : list float64)
    (sent : gmap string bool) :
  min_int64 + 10 <= threshold <= max_int64 ->
  Fgt value (float64_of_int threshold) = true ->
  alertFlag sent key = false ->
  Forall (fun v => Fle value v = true) later ->
  snd (runChecks key text threshold (value :: later) sent)
  = (Fired, [text value]) :: map (fun _ => (NoTransition, [])) later
  /\ alertFlag (fst (runChecks key text threshold (value :: later) sent)) key = true.
Proof.
  intros Hr Hv Hf Hlater.
  destruct (alertCheck_cases key text value threshold sent)
    as [(_ & _ & E)|[([Hn|Hn] & _)|([Hn|Hn] & _)]]; try congruence.
  cbn [runChecks]. unfold evaluate. rewrite E. cbn [fst snd].
  rewrite alertFlag_insert, Hf. cbn [transition].
  assert (Hset : alertFlag (<[key := true]> sent) key = true) by apply alertFlag_insert.
  revert Hset. generalize (<[key := true]> sent) as sent1.
  induction Hlater as [|v rest Hv' Hrest IH]; intros sent1 Hset; cbn [runChecks map].
  - auto.
  - assert (Habove : Fgt v (float64_of_int threshold) = true)
      by (apply Flt_Fle_trans with value; auto).
    unfold evaluate.
    rewrite (alertCheck_still_above key text v threshold sent1 Hr Habove Hset).
    cbn [fst snd]. rewrite Hset. cbn [transition].
    specialize (IH sent1 Hset).
    destruct (runChecks key text threshold rest sent1) as [sent2 trs].
    cbn [fst snd] in *. destruct IH as [I1 I2].
    split; [|exact I2]. injection I1 as ->. reflexivity.
Qed.

Lemma fire_once_witness :
  snd (runChecks "cpu" cpuAlertText 80 [FFin 85; FFin 85; FFin 90] ∅)
  = [(Fired, [cpuAlertText (FFin 85)]); (NoTransition, []); (NoTransition, [])]
  /\ alertFlag (fst (runChecks "cpu" cpuAlertText 80 [FFin 85; FFin 85; FFin 90] ∅)) "cpu" = true.
Proof.
  apply (fire_once "cpu" cpuAlertText (FFin 85) 80 [FFin 85; FFin 90] ∅).
  - unfold min_int64, max_int64. lia.
  - reflexivity.
  - reflexivity.
  - repeat constructor.
Defined.

(** At the smallest [int] the second check with the same value clears the
    flag, and the third fires again. *)
Lemma fire_once_counterexample :
  in_int64 min_int64
  /\ Fgt (FFin 50) (float64_of_int min_int64) = true
  /\ alertFlag (∅ : gmap string bool) "cpu" = false
  /\ Fle (FFin 50) (FFin 50) = true
  /\ map fst (snd (runChecks "cpu" cpuAlertText min_int64 [FFin 50; FFin 50; FFin 50] ∅))
     = [Fired; Cleared; Fired].
Proof.
  split; [unfold in_int64, min_int64, max_int64; lia|].
  repeat split; vm_compute; reflexivity.
Qed.

(** C7. [checkAndSendAlert] leaves the monitor as it found it, the
    [alertSent] map included; it sends one message exactly when the CPU
    value or the memory value is above its threshold, none otherwise; and
    what it sends does not depend on the [alertSent] map. *)
Theorem checkAndSendAlert_stateless (p : Probe) (now : Z) (m : ServerMonitor) :
  let cpuHigh := Fgt (getCPUUsage p) (float64_of_int (CPUThreshold (config m))) in
  let memHigh := Fgt (mem_UsedPercent (getMemoryInfo p))
                     (float64_of_int (MemThreshold (config m))) in
  fst (checkAndSendAlert p now m) = m
  /\ alertSent (fst (checkAndSendAlert p now m)) = alertSent m
  /\ (cpuHigh || memHigh = true ->
      exists alertMsg, snd (checkAndSendAlert p now m) = [alertMsg])
  /\ (cpuHigh || memHigh = false -> snd (checkAndSendAlert p now m) = [])
  /\ (forall sent : gmap string bool,
        snd (checkAndSendAlert p now {| config := config m; alertSent := sent |})
        = snd (checkAndSendAlert p now m)).
Proof.
  cbv zeta. unfold checkAndSendAlert. cbn [config].
  destruct (Fgt (getCPUUsage p) (float64_of_int (CPUThreshold (config m))));
    destruct (Fgt (mem_UsedPercent (getMemoryInfo p))
                  (float64_of_int (MemThreshold (config m))));
    cbn; repeat split; eauto; discriminate.
Qed.
(** ** The calendar *)

Lemma all_from_spec (f : Z -> bool) (n : nat) (from : Z) :
  all_from f n from = true ->
  forall z, from <= z < from + Z.of_nat n -> f z = true.
Proof.
  revert from. induction n as [|n IH]; intros from H z Hz; [lia|].
  cbn [all_from] in H. apply andb_true_iff in H as [H0 H1].
  destruct (Z.eq_dec z from) as [->|Hne]; [exact H0|].
  apply (IH (from + 1) H1). lia.
Qed.

Lemma era_round_trip_all (doe : Z) : 0 <= doe < 146097 -> era_round_trip doe = true.
Proof.
  intros H. apply (all_from_spec era_round_trip (Z.to_nat 146097) 0); [|lia].
  vm_compute. reflexivity.
Qed.

(** The day number of the civil date of a day number is that number. *)
Lemma days_from_civil_from_days (z : Z) :
  let '(y, m, d) := civil_from_days z in
  days_from_civil y m d = z /\ 1 <= m <= 12 /\ 1 <= d <= 31.
Proof.
  unfold civil_from_days.
  set (z' := z + 719468). set (era := z' / 146097).
  set (doe := z' - era * 146097).
  assert (Hdoe : 0 <= doe < 146097).
  { unfold doe, era. pose proof (Z.mod_pos_bound z' 146097 eq_refl) as Hm.
    rewrite Z.mod_eq in Hm by lia. lia. }
  pose proof (era_round_trip_all doe Hdoe) as Hrt. unfold era_round_trip in Hrt.
  set (yoe := (doe - doe / 1460 + doe / 36524 - doe / 146096) / 365) in *.
  set (doy := doe - (365 * yoe + yoe / 4 - yoe / 100)) in *.
  set (mp := (5 * doy + 2) / 153) in *.
  set (d := doy - (153 * mp + 2) / 5 + 1) in *.
  set (m := if mp <? 10 then mp + 3 else mp - 9) in *.
  repeat (apply andb_true_iff in Hrt as [Hrt ?]).
  unfold days_from_civil.
  assert (Hy : (if m <=? 2 then (if m <=? 2 then yoe + era * 400 + 1 else yoe + era * 400) - 1
                else (if m <=? 2 then yoe + era * 400 + 1 else yoe + era * 400))
               = yoe + era * 400) by (destruct (m <=? 2); lia).
  rewrite Hy.
  assert (He : (yoe + era * 400) / 400 = era).
  { rewrite Z.div_add by lia. rewrite Z.div_small by lia. lia. }
  rewrite He.
  replace (yoe + era * 400 - era * 400) with yoe by lia.
  split; [|lia]. unfold doe in *. lia.
Qed.
(** ** The scheduler *)

Lemma digitVal_range (a : ascii) : isDigit a = true -> 0 <= digitVal a <= 9.
Proof.
  unfold isDigit, digitVal. intros H. apply andb_true_iff in H as [H1 H2].
  apply Nat.leb_le in H1, H2. lia.
Qed.

Lemma getnum_nonneg (s : string) (fixed : bool) (n : Z) (rest : string) :
  getnum s fixed = Some (n, rest) -> 0 <= n.
Proof.
  unfold getnum. destruct s as [|a s]; [discriminate|].
  destruct (isDigit a) eqn:Ha; [|discriminate].
  pose proof (digitVal_range a Ha).
  destruct s as [|b s].
  - destruct fixed; [discriminate|]. intros [= <- _]. lia.
  - destruct (isDigit b) eqn:Hb.
    + pose proof (digitVal_range b Hb). intros [= <- _]. lia.
    + destruct fixed; [discriminate|]. intros [= <- _]. lia.
Qed.

(** A report time that parses has its hour below 24 and its minute below 60. *)
Lemma Parse_1504_range (value : string) (hour min : Z) :
  Parse_1504 value = Some (hour, min) -> 0 <= hour < 24 /\ 0 <= min < 60.
Proof.
  unfold Parse_1504.
  destruct (getnum value false) as [[h rest]|] eqn:E1; [|discriminate].
  cbn. destruct (24 <=? h) eqn:Hh; [discriminate|].
  destruct rest as [|c rest']; [discriminate|].
  destruct (Ascii.eqb_spec c ":") as [->|Hne].
  2:{ destruct c as [[] [] [] [] [] [] [] []]; try discriminate. contradiction. }
  destruct (getnum rest' true) as [[mi rest'']|] eqn:E2; [|discriminate].
  cbn. destruct (60 <=? mi) eqn:Hm; [discriminate|].
  destruct rest''; [|discriminate]. intros [= <- <-].
  apply getnum_nonneg in E1, E2. lia.
Qed.

Lemma unixSeconds_of_seconds (s : Z) : unixSeconds (s * nsPerSecond) = s.
Proof. unfold unixSeconds, nsPerSecond. apply Z.div_mul. lia. Qed.

(** C3, as the code has it. For a report time that parses to [hour]:[min],
    let [target] be [hour]:[min]:00 of the current day of the UTC+8 clock.
    The next report is at [target] when the current instant is at or
    before it, and at [target] plus 24 hours when the current instant is
    after it. With 15:00: from 2025-06-26 16:00 (+08:00) the next report
    is 2025-06-27 15:00, from 2025-06-26 10:00 it is 2025-06-26 15:00. *)
Theorem nextReport_spec (now : Z) (m : ServerMonitor) (hour min : Z) :
  Parse_1504 (ReportTime (config m)) = Some (hour, min) ->
  let today := wallSeconds now CST / secondsPerDay in
  let target := (today * secondsPerDay + hour * 3600 + min * 60 - CST) * nsPerSecond in
  (0 <= hour < 24 /\ 0 <= min < 60)
  /\ Time_date target CST = Time_date now CST
  /\ Time_clock target CST = (hour, min, 0)
  /\ (now <= target -> nextReport now m = Fire target (target - now))
  /\ (target < now ->
      nextReport now m
      = Fire (target + 24 * 3600 * nsPerSecond) (target + 24 * 3600 * nsPerSecond - now))
  /\ (forall m15, ReportTime (config m15) = "15:00" ->
      nextReport (Time_Date 2025 6 26 16 0 0 0 CST) m15
      = Fire (Time_Date 2025 6 27 15 0 0 0 CST) (23 * Hour)
      /\ nextReport (Time_Date 2025 6 26 10 0 0 0 CST) m15
         = Fire (Time_Date 2025 6 26 15 0 0 0 CST) (5 * Hour)).
Proof.
  intros Hparse. cbv zeta.
  pose proof (Parse_1504_range _ _ _ Hparse) as [Hh Hm].
  set (today := wallSeconds now CST / secondsPerDay).
  set (secs := today * secondsPerDay + hour * 3600 + min * 60).
  set (target := (secs - CST) * nsPerSecond).
  assert (Hwall : wallSeconds target CST = secs).
  { unfold wallSeconds, target. rewrite unixSeconds_of_seconds. lia. }
  assert (Hday : secs / secondsPerDay = today).
  { unfold secs, secondsPerDay. 
    replace (today * 86400 + hour * 3600 + min * 60)
      with ((hour * 3600 + min * 60) + today * 86400) by lia.
    rewrite Z.div_add by lia. rewrite Z.div_small by lia. lia. }
  assert (Hmod : secs mod secondsPerDay = hour * 3600 + min * 60).
  { unfold secs, secondsPerDay.
    replace (today * 86400 + hour * 3600 + min * 60)
      with ((hour * 3600 + min * 60) + today * 86400) by lia.
    rewrite Z.mod_add by lia. apply Z.mod_small. lia. }
  assert (Hdate : Time_date target CST = Time_date now CST).
  { unfold Time_date. rewrite Hwall, Hday. reflexivity. }
  assert (Hnow : unixSeconds now * nsPerSecond <= now < unixSeconds now * nsPerSecond + nsPerSecond).
  { unfold unixSeconds, nsPerSecond.
    pose proof (Z.mod_pos_bound now 1000000000 eq_refl) as Hb.
    rewrite Z.mod_eq in Hb by lia. lia. }
  assert (Htoday : today * secondsPerDay <= wallSeconds now CST < today * secondsPerDay + secondsPerDay).
  { unfold today, secondsPerDay.
    pose proof (Z.mod_pos_bound (wallSeconds now CST) 86400 eq_refl) as Hb.
    rewrite Z.mod_eq in Hb by lia. lia. }
  assert (Htarget : forall y mo d, Time_date now CST = (y, mo, d) ->
                    Time_Date y mo d hour min 0 0 CST = target).
  { intros y mo d E. unfold Time_date in E. fold today in E.
    pose proof (days_from_civil_from_days today) as Hrt. rewrite E in Hrt.
    destruct Hrt as [Hrt _]. unfold Time_Date. rewrite Hrt. unfold target, secs. lia. }
  split; [auto|]. split; [exact Hdate|]. split.
  { unfold Time_clock. rewrite Hwall, Hmod.
    f_equal; [f_equal|].
    - replace (hour * 3600 + min * 60) with (min * 60 + hour * 3600) by lia.
      rewrite Z.div_add by lia. rewrite Z.div_small by lia. lia.
    - replace (hour * 3600 + min * 60) with (min * 60 + hour * 3600) by lia.
      rewrite Z.mod_add by lia. rewrite Z.mod_small by lia.
      rewrite Z.div_mul by lia. reflexivity.
    - replace (hour * 3600 + min * 60) with (0 + (hour * 60 + min) * 60) by lia.
      rewrite Z.mod_add by lia. reflexivity. }
  assert (Hbound : - (24 * 3600 * nsPerSecond) < target - now <= 24 * 3600 * nsPerSecond).
  { unfold target, secs, wallSeconds, secondsPerDay, CST, nsPerSecond in *. lia. }
  split; [|split].
  - intros Hle. unfold nextReport. rewrite Hparse.
    destruct (Time_date now CST) as [[y mo] d] eqn:E.
    rewrite (Htarget y mo d eq_refl).
    unfold Time_After. replace (target <? now) with false by (symmetry; apply Z.ltb_ge; lia).
    f_equal. unfold Time_Sub, min_int64, max_int64, nsPerSecond in *. lia.
  - intros Hlt. unfold nextReport. rewrite Hparse.
    destruct (Time_date now CST) as [[y mo] d] eqn:E.
    rewrite (Htarget y mo d eq_refl).
    unfold Time_After. replace (target <? now) with true by (symmetry; apply Z.ltb_lt; lia).
    unfold Time_Add, Hour, Minute, Second.
    replace (24 * (60 * (60 * 1000000000))) with (24 * 3600 * nsPerSecond)
      by (unfold nsPerSecond; lia).
    f_equal. unfold Time_Sub, min_int64, max_int64, nsPerSecond in *. lia.
  - intros m15 H15. unfold nextReport. rewrite H15. split; vm_compute; reflexivity.
Qed.

Lemma nextReport_spec_witness :
  nextReport (Time_Date 2025 6 26 15 0 0 1 CST)
             (NewServerMonitor (mkConfig "t" 1 "15:00" "" 80 80))
  = Fire (Time_Date 2025 6 27 15 0 0 0 CST) (24 * Hour - 1).
Proof.
  pose proof (nextReport_spec (Time_Date 2025 6 26 15 0 0 1 CST)
                (NewServerMonitor (mkConfig "t" 1 "15:00" "" 80 80)) 15 0 eq_refl)
    as (_ & _ & _ & _ & H & _).
  exact (H ltac:(vm_compute; reflexivity)).
Defined.

(** At the report instant itself the target is not moved to the next
    day: the report is due at once. *)
Lemma nextReport_at_target_counterexample :
  let now := Time_Date 2025 6 26 15 0 0 0 CST in
  let m := NewServerMonitor (mkConfig "t" 1 "15:00" "" 80 80) in
  Parse_1504 (ReportTime (config m)) = Some (15, 0)
  /\ nextReport now m = Fire now 0
  /\ nextReport now m <> Fire (now + 24 * Hour) (24 * Hour).
Proof.
  cbv zeta. split; [reflexivity|]. split; [vm_compute; reflexivity|].
  vm_compute. discriminate.
Qed.
(** ** Loading the configuration *)

Lemma fromEnv_fields (env : gmap string string) :
  fromEnv env =
  {| BotToken := default "" (envSetsString env "BOT_TOKEN");
     ChatID := default 0 (envSetsInt env "CHAT_ID");
     ReportTime := default "15:00" (envSetsString env "REPORT_TIME");
     CustomMessage := default "🖥️ 服务器状态报告" (envSetsString env "CUSTOM_MESSAGE");
     CPUThreshold := default 80 (envSetsInt env "CPU_THRESHOLD");
     MemThreshold := default 80 (envSetsInt env "MEM_THRESHOLD") |}.
Proof.
  unfold fromEnv, envString, envInt, envSetsString, envSetsInt.
  destruct (String.eqb (Getenv env "BOT_TOKEN") "");
    destruct (String.eqb (Getenv env "CHAT_ID") "");
    destruct (String.eqb (Getenv env "REPORT_TIME") "");
    destruct (String.eqb (Getenv env "CUSTOM_MESSAGE") "");
    destruct (String.eqb (Getenv env "CPU_THRESHOLD") "");
    destruct (String.eqb (Getenv env "MEM_THRESHOLD") "");
    try destruct (ParseInt (Getenv env "CHAT_ID"));
    try destruct (ParseInt (Getenv env "CPU_THRESHOLD"));
    try destruct (ParseInt (Getenv env "MEM_THRESHOLD"));
    reflexivity.
Qed.

(** C2, as the code has it. The order is: defaults, overridden by the
    environment, overridden by [config.json]. A field that the file sets
    carries the file's value whatever the environment says; a field the
    file leaves out carries the environment's value when it sets one, and
    the default otherwise. *)
Theorem loadConfig_precedence (env : gmap string string) (file : ConfigFile)
    (cfg : Config) :
  loadConfig env file = inl cfg ->
  let d := decodedOf file in
  BotToken cfg = pick (bot_token d) (envSetsString env "BOT_TOKEN") ""
  /\ ChatID cfg = pick (chat_id d) (envSetsInt env "CHAT_ID") 0
  /\ ReportTime cfg = pick (report_time d) (envSetsString env "REPORT_TIME") "15:00"
  /\ CustomMessage cfg
     = pick (custom_message d) (envSetsString env "CUSTOM_MESSAGE") "🖥️ 服务器状态报告"
  /\ CPUThreshold cfg = pick (cpu_threshold d) (envSetsInt env "CPU_THRESHOLD") 80
  /\ MemThreshold cfg = pick (mem_threshold d) (envSetsInt env "MEM_THRESHOLD") 80
  /\ (forall v, report_time d = Some v -> ReportTime cfg = v)
  /\ (forall v, cpu_threshold d = Some v -> CPUThreshold cfg = v)
  /\ (forall v, mem_threshold d = Some v -> MemThreshold cfg = v)
  /\ (forall v, custom_message d = Some v -> CustomMessage cfg = v)
  /\ (forall v, bot_token d = Some v -> BotToken cfg = v)
  /\ (forall v, chat_id d = Some v -> ChatID cfg = v).
Proof.
  intros Hload. cbv zeta.
  assert (E : cfg = json_Unmarshal (decodedOf file) (fromEnv env)).
  { unfold loadConfig in Hload.
    replace (match file with
             | ReadError => fromEnv env
             | Data decoded => json_Unmarshal decoded (fromEnv env)
             end) with (json_Unmarshal (decodedOf file) (fromEnv env)) in Hload
      by (destruct file; [destruct (fromEnv env)|]; reflexivity).
    destruct (String.eqb (BotToken _) ""); [discriminate|].
    destruct (ChatID _ =? 0); [discriminate|]. now injection Hload. }
  subst cfg. rewrite fromEnv_fields.
  destruct (decodedOf file) as [bt ci rt cm ct mt]. cbn.
  repeat split; intros v ->; reflexivity.
Qed.

Lemma loadConfig_precedence_witness :
  loadConfig sampleEnv sampleFile = inl sampleConfig
  /\ ReportTime sampleConfig = "08:30"
  /\ CPUThreshold sampleConfig = 70.
Proof.
  assert (H : loadConfig sampleEnv sampleFile = inl sampleConfig)
    by (vm_compute; reflexivity).
  pose proof (loadConfig_precedence sampleEnv sampleFile sampleConfig H)
    as (_ & _ & _ & _ & _ & _ & Hrt & Hct & _).
  exact (conj H (conj (Hrt "08:30" eq_refl) (Hct 70 eq_refl))).
Defined.

(** With the report time set to 21:00 in the environment and to 08:30 in
    [config.json], the configuration loaded carries 08:30. *)
Lemma loadConfig_env_over_file_counterexample :
  envSetsString sampleEnv "REPORT_TIME" = Some "21:00"
  /\ report_time (decodedOf sampleFile) = Some "08:30"
  /\ envSetsInt sampleEnv "CPU_THRESHOLD" = Some 90
  /\ cpu_threshold (decodedOf sampleFile) = Some 70
  /\ exists cfg,
       loadConfig sampleEnv sampleFile = inl cfg
       /\ ReportTime cfg = "08:30" /\ ReportTime cfg <> "21:00"
       /\ CPUThreshold cfg = 70 /\ CPUThreshold cfg <> 90.
Proof.
  repeat split; try (vm_compute; reflexivity).
  exists sampleConfig.
  repeat split; try (vm_compute; reflexivity); vm_compute; discriminate.
Qed.
(** ** Retrieval never fails the report *)

(** [maskIP] never panics: the index 3 is within the four pieces. *)
Lemma maskIP_total (ip : string) : exists masked, maskIP ip = Some masked.
Proof.
  unfold maskIP.
  destruct (Nat.eqb (strings.Count ip ".") 3) eqn:E.
  - apply Nat.eqb_eq in E.
    destruct (Split_last ip ".") as (_ & last & Hlk & _).
    rewrite E in Hlk. rewrite Hlk. cbn. eauto.
  - destruct (strings.Contains ip ":"); [|eauto].
    destruct (8 <? String.length (strings.ReplaceAll ip ":" ""))%nat; eauto.
Qed.

Lemma generateReport_total (p : Probe) (now : Z) (m : ServerMonitor) :
  exists report, generateReport p now m = Some report.
Proof.
  unfold generateReport.
  destruct (maskIP_total (IP (getLocationInfo p))) as [masked ->]. cbn. eauto.
Qed.

(** [checkAndSendAlert] hands the monitor back as it got it. *)
Lemma checkAndSendAlert_monitor (p : Probe) (now : Z) (m : ServerMonitor) :
  fst (checkAndSendAlert p now m) = m.
Proof.
  unfold checkAndSendAlert.
  destruct (0 <? length _)%nat; reflexivity.
Qed.

(** C8. Every retrieval helper answers a failure with a placeholder:
    [getCPUUsage] is 0 on an error or on no samples, [getLocationInfo]
    gives the unknown placeholder for the IP and the location when the
    request or the read fails (and never an empty IP or location), the
    memory, disk, network and host helpers give zero values. The helpers
    return plain values, so no error reaches [generateReport]: it yields a
    report for every probe, and so does the whole scheduled step. *)
Theorem retrieval_never_aborts (p : Probe) :
  (failed (snd (cpu_Percent p)) = true \/ fst (cpu_Percent p) = [] ->
     getCPUUsage p = zeroF)
  /\ (http_Trace p = GetFailed \/ http_Trace p = ReadFailed ->
     IP (getLocationInfo p) = unknown /\ Location (getLocationInfo p) = unknown)
  /\ (IP (getLocationInfo p) <> "" /\ Location (getLocationInfo p) <> "")
  /\ (failed (snd (mem_VirtualMemory p)) = true ->
     getMemoryInfo p = mkMem 0 0 zeroF)
  /\ (failed (snd (disk_Usage p)) = true -> getDiskInfo p = mkDisk 0 0 zeroF)
  /\ (failed (snd (net_IOCounters p)) = true \/ fst (net_IOCounters p) = [] ->
     getNetworkInfo p = mkNet zeroF zeroF)
  /\ (failed (snd (host_Info p)) = true -> getHostInfo p = mkHost "" 0)
  /\ (forall now m, exists report, generateReport p now m = Some report)
  /\ (forall now p2 now2 m,
        exists report out,
          reportAndCheck p now p2 now2 m = Some (m, report :: out)).
Proof.
  split; [|split; [|split; [|split; [|split; [|split; [|split; [|split]]]]]]].
  - unfold getCPUUsage. destruct (cpu_Percent p) as [percent err]. cbn.
    intros [->| ->]; [reflexivity|]. now rewrite orb_true_r.
  - unfold getLocationInfo. intros [->| ->]; auto.
  - unfold getLocationInfo. destruct (http_Trace p); [split; discriminate..|].
    set (info := fold_left scanLine _ _).
    destruct (String.eqb_spec (IP info) "") as [E1|N1]; cbn [IP Location];
      destruct (String.eqb_spec (Location info) "") as [E2|N2]; cbn [IP Location];
      split; auto; discriminate.
  - unfold getMemoryInfo. destruct (mem_VirtualMemory p) as [v err]. cbn. now intros ->.
  - unfold getDiskInfo. destruct (disk_Usage p) as [v err]. cbn. now intros ->.
  - unfold getNetworkInfo. destruct (net_IOCounters p) as [stats err]. cbn.
    intros [->| ->]; [reflexivity|]. now rewrite orb_true_r.
  - unfold getHostInfo. destruct (host_Info p) as [v err]. cbn. now intros ->.
  - intros now m. apply generateReport_total.
  - intros now p2 now2 m. unfold reportAndCheck.
    destruct (generateReport_total p now m) as [report ->]. cbn.
    pose proof (checkAndSendAlert_monitor p2 now2 m) as Hm.
    destruct (checkAndSendAlert p2 now2 m) as [m' out]. cbn in Hm. subst m'. eauto.
Qed.


(** ** Exact values of binary64 *)

Lemma Qlog2_unique (a : Q) (e : Z) :
  (0 < a)%Q -> (Qpow2 e <= a)%Q -> (a < Qpow2 (e + 1))%Q -> Qlog2 a = e.
Proof.
  intros Ha Hl Hu. destruct (Qlog2_spec a Ha) as [L U].
  assert (Qlog2 a < e + 1) by (apply Qpow2_lt_inv; lra).
  assert (e < Qlog2 a + 1) by (apply Qpow2_lt_inv; lra).
  lia.
Qed.

Lemma rounded_mag_comp (a b : Q) :
  (0 < a)%Q -> (a == b)%Q -> (rounded_mag a == rounded_mag b)%Q.
Proof.
  intros Ha E. apply Qle_antisym; apply rounded_mag_mono; lra.
Qed.

(** A positive value [n * 2^e] with [n] below [2^53] and [e] no less than
    [-1074] is its own rounding. *)
Lemma rounded_mag_exact (n e : Z) :
  0 < n < 2 ^ 53 -> - 1074 <= e ->
  (rounded_mag (inject_Z n * Qpow2 e) == inject_Z n * Qpow2 e)%Q.
Proof.
  intros Hn He.
  pose proof (Qpow2_pos e) as Pe.
  assert (Hn0 : (0 < inject_Z n)%Q) by (change 0%Q with (inject_Z 0); rewrite <- Zlt_Qlt; lia).
  set (a := (inject_Z n * Qpow2 e)%Q).
  assert (Ha : (0 < a)%Q) by (unfold a; nra).
  pose proof (Z.log2_spec n ltac:(lia)) as [Ll Lu]. rewrite <- Z.add_1_r in Lu.
  pose proof (Z.log2_nonneg n) as L0.
  assert (L52 : Z.log2 n <= 52).
  { assert (Z.log2 n < 53); [|lia]. apply Z.log2_lt_pow2; lia. }
  assert (Hlog : Qlog2 a = Z.log2 n + e).
  { apply Qlog2_unique; [exact Ha| |].
    - unfold a. rewrite Qpow2_add. rewrite (Qpow2_nonneg_inject (Z.log2 n)) by lia.
      rewrite Zle_Qle in Ll. nra.
    - unfold a. replace (Z.log2 n + e + 1) with ((Z.log2 n + 1) + e) by lia.
      rewrite Qpow2_add. rewrite (Qpow2_nonneg_inject (Z.log2 n + 1)) by lia.
      rewrite Zlt_Qlt in Lu. nra. }
  unfold rounded_mag, ulp_exp. rewrite Hlog.
  set (u := Z.max (Z.log2 n + e - 52) (-1074)).
  assert (Hu : u <= e) by (unfold u; lia).
  pose proof (Qpow2_pos u) as Pu.
  assert (Hk : (Qpow2 e == inject_Z (2 ^ (e - u)) * Qpow2 u)%Q).
  { rewrite <- Qpow2_nonneg_inject by lia. rewrite <- Qpow2_add.
    replace (e - u + u) with e by lia. reflexivity. }
  assert (Hdiv : (a / Qpow2 u == inject_Z (n * 2 ^ (e - u)))%Q).
  { unfold a. rewrite Hk, inject_Z_mult. field. lra. }
  rewrite (round_half_even_comp _ _ Hdiv), round_half_even_int.
  unfold a. rewrite Hk, inject_Z_mult. ring.
Qed.

(** A value that is an integer below [2^53] times [2^e], [e >= -1074],
    rounds to itself. *)
Lemma binary64_round_exact (x : Q) (n e : Z) :
  0 <= n < 2 ^ 53 -> - 1074 <= e <= 900 ->
  (x == inject_Z n * Qpow2 e)%Q ->
  exists q, binary64_round x = FFin q /\ (q == x)%Q.
Proof.
  intros Hn He Hx. rewrite binary64_round_eq.
  pose proof (Qpow2_pos e) as Pe.
  destruct (Qeq_bool x 0) eqn:E0.
  - exists 0%Q. split; [reflexivity|]. apply Qeq_bool_iff in E0. lra.
  - apply Qeq_bool_neq in E0.
    assert (Hn0 : 0 < n).
    { destruct (Z.eq_dec n 0) as [->|]; [|lia]. exfalso. apply E0.
      rewrite Hx. change (inject_Z 0) with 0%Q. ring. }
    assert (HnQ : (0 < inject_Z n)%Q)
      by (change 0%Q with (inject_Z 0); rewrite <- Zlt_Qlt; lia).
    assert (Ha : (0 < x)%Q) by (rewrite Hx; nra).
    assert (Habs : (Qabs x == x)%Q) by (apply Qabs_pos; lra).
    assert (Hmag : (rounded_mag (Qabs x) == x)%Q).
    { rewrite (rounded_mag_comp (Qabs x) (inject_Z n * Qpow2 e)) by lra.
      rewrite rounded_mag_exact by lia. lra. }
    assert (Hsmall : (x < Qpow2 1024)%Q).
    { assert (Hn53 : (inject_Z n < Qpow2 53)%Q)
        by (rewrite Qpow2_nonneg_inject by lia; rewrite <- Zlt_Qlt; lia).
      assert (Hle : (Qpow2 53 * Qpow2 e <= Qpow2 1024)%Q)
        by (rewrite <- Qpow2_add; apply Qpow2_le; lia).
      rewrite Hx. nra. }
    replace (Qle_bool (Qpow2 1024) (rounded_mag (Qabs x))) with false
      by (symmetry; apply Qle_bool_false; lra).
    replace (Qlt_bool x 0) with false by (symmetry; apply Qlt_bool_false; lra).
    exists (rounded_mag (Qabs x)). split; [reflexivity|exact Hmag].
Qed.

Lemma float64_of_int_exact (n : Z) :
  0 <= n < 2 ^ 53 ->
  exists q, float64_of_int n = FFin q /\ (q == inject_Z n)%Q.
Proof.
  intros Hn. unfold float64_of_int.
  apply (binary64_round_exact (inject_Z n) n 0 Hn); [lia|].
  unfold Qpow2. simpl. ring.
Qed.

(** What lies between two finite floats is a finite float between them. *)
Lemma Fle_between (lo hi : Q) (f : float64) :
  Fle (FFin lo) f = true -> Fle f (FFin hi) = true ->
  exists q, f = FFin q /\ (lo <= q <= hi)%Q.
Proof.
  destruct f as [|[]|q]; cbn; try discriminate.
  intros H1 H2. apply Qle_bool_iff in H1, H2. eauto.
Qed.

Lemma binary64_round_between (x lo hi : Q) (nl el nh eh : Z) :
  0 <= nl < 2 ^ 53 -> - 1074 <= el <= 900 -> (lo == inject_Z nl * Qpow2 el)%Q ->
  0 <= nh < 2 ^ 53 -> - 1074 <= eh <= 900 -> (hi == inject_Z nh * Qpow2 eh)%Q ->
  (lo <= x <= hi)%Q ->
  exists q, binary64_round x = FFin q /\ (lo <= q <= hi)%Q.
Proof.
  intros Hnl Hel Hlo Hnh Heh Hhi [Hl Hh].
  destruct (binary64_round_exact lo nl el Hnl Hel Hlo) as (ql & El & Hql).
  destruct (binary64_round_exact hi nh eh Hnh Heh Hhi) as (qh & Eh & Hqh).
  pose proof (binary64_round_mono lo x Hl) as M1. rewrite El in M1.
  pose proof (binary64_round_mono x hi Hh) as M2. rewrite Eh in M2.
  destruct (Fle_between ql qh _ M1 M2) as (q & E & Hq).
  exists q. split; [exact E|lra].
Qed.

(** The integral part of [h + n/D] computed in float64 is [h], when the
    fraction [n/D] is at most [4095/4096]. *)
Lemma int_of_sum (h n D : Z) :
  0 <= h < 2 ^ 40 -> 0 <= n < 2 ^ 53 -> 0 < D < 2 ^ 53 -> n * 4096 <= 4095 * D ->
  int_of_float64 (Fadd (float64_of_int h)
                       (Fdiv (float64_of_int n) (FFin (inject_Z D)))) = h.
Proof.
  intros Hh Hn HD Hfrac.
  destruct (float64_of_int_exact h ltac:(lia)) as (qh & -> & Hqh).
  destruct (float64_of_int_exact n ltac:(lia)) as (qn & -> & Hqn).
  assert (HDQ : (0 < inject_Z D)%Q) by (change 0%Q with (inject_Z 0); rewrite <- Zlt_Qlt; lia).
  assert (HnQ : (0 <= inject_Z n)%Q) by (change 0%Q with (inject_Z 0); rewrite <- Zle_Qle; lia).
  assert (HhQ : (0 <= inject_Z h)%Q) by (change 0%Q with (inject_Z 0); rewrite <- Zle_Qle; lia).
  cbn [Fdiv].
  replace (Qeq_bool (inject_Z D) 0) with false
    by (symmetry; apply not_true_is_false; intros E; apply Qeq_bool_iff in E; lra).
  assert (Hfr : (0 <= qn / inject_Z D <= 4095 # 4096)%Q).
  { split.
    - apply Qle_shift_div_l; [exact HDQ|]. lra.
    - apply Qle_shift_div_r; [exact HDQ|].
      assert (Hz : (inject_Z (n * 4096) <= inject_Z (4095 * D))%Q) by (rewrite <- Zle_Qle; lia).
      rewrite !inject_Z_mult in Hz.
      change (inject_Z 4096) with 4096%Q in Hz. change (inject_Z 4095) with 4095%Q in Hz.
      lra. }
  destruct (binary64_round_between (qn / inject_Z D) 0 (4095 # 4096) 0 0 4095 (-12))
    as (f & -> & Hf); try lia; try exact Hfr.
  { change (inject_Z 0) with 0%Q. ring. }
  { vm_compute. reflexivity. }
  cbn [Fadd].
  destruct (binary64_round_between (qh + f) (inject_Z h) (inject_Z h + (4095 # 4096))
              h 0 (h * 4096 + 4095) (-12))
    as (s & -> & Hs); try lia.
  { unfold Qpow2. simpl. ring. }
  { rewrite inject_Z_plus, inject_Z_mult.
    change (inject_Z 4096) with 4096%Q. change (inject_Z 4095) with 4095%Q.
    change (Qpow2 (-12)) with (1 # 4096)%Q. field. }
  { lra. }
  cbn [int_of_float64].
  replace (Qlt_bool s 0) with false by (symmetry; apply Qlt_bool_false; lra).
  assert (Hfl : Qfloor s = h).
  { apply Z.le_antisymm.
    - assert (Qfloor s < h + 1); [|lia].
      rewrite Zlt_Qlt. pose proof (Qfloor_le s). rewrite inject_Z_plus.
      change (inject_Z 1) with 1%Q. lra.
    - rewrite <- (Qfloor_Z h). apply Qfloor_resp_le. lra. }
  rewrite Hfl.
  replace ((min_int64 <=? h) && (h <=? max_int64)) with true; [reflexivity|].
  symmetry. apply andb_true_iff. unfold min_int64, max_int64.
  split; [apply Z.leb_le|apply Z.leb_le]; lia.
Qed.

(** ** Uptime *)

(** Up to 9223372036 seconds (some 292 years) the product with
    [time.Second] does not wrap, and [days], [hours] and [minutes] of
    [formatUptime] are the plain integer parts. *)
Lemma uptime_components (uptime : Z) :
  0 <= uptime <= 9223372036 ->
  uptimeDays uptime = uptime / 86400
  /\ uptimeHours uptime = uptime / 3600 mod 24
  /\ uptimeMinutes uptime = uptime / 60 mod 60.
Proof.
  intros Hu.
  assert (Hd : uptimeDuration uptime = uptime * 1000000000).
  { unfold uptimeDuration, Second.
    rewrite (wrap64_id uptime) by (unfold in_int64, min_int64, max_int64; lia).
    apply wrap64_id. unfold in_int64, min_int64, max_int64. lia. }
  assert (Hhours : int_of_float64 (Duration_Hours (uptimeDuration uptime)) = uptime / 3600).
  { unfold Duration_Hours, go_div, go_mod, Hour, Minute, Second. rewrite Hd.
    rewrite Z.quot_div_nonneg by lia. rewrite Z.rem_mod_nonneg by lia.
    replace (60 * (60 * 1000000000)) with (3600 * 1000000000) by lia.
    rewrite Z.div_mul_cancel_r by lia.
    rewrite Zmult_mod_distr_r.
    replace (60 * 60 * 1000000000) with (3600 * 1000000000) by lia.
    pose proof (Z.mod_pos_bound uptime 3600 eq_refl).
    assert (0 <= uptime / 3600 <= 2562048).
    { split; [apply Z.div_pos; lia|]. apply Z.div_le_upper_bound; lia. }
    apply int_of_sum; lia. }
  assert (Hmins : int_of_float64 (Duration_Minutes (uptimeDuration uptime)) = uptime / 60).
  { unfold Duration_Minutes, go_div, go_mod, Minute, Second. rewrite Hd.
    rewrite Z.quot_div_nonneg by lia. rewrite Z.rem_mod_nonneg by lia.
    rewrite Z.div_mul_cancel_r by lia.
    rewrite Zmult_mod_distr_r.
    pose proof (Z.mod_pos_bound uptime 60 eq_refl).
    assert (0 <= uptime / 60 <= 153722868).
    { split; [apply Z.div_pos; lia|]. apply Z.div_le_upper_bound; lia. }
    apply int_of_sum; lia. }
  unfold uptimeDays, uptimeHours, uptimeMinutes, go_div, go_mod.
  rewrite Hhours, Hmins.
  assert (0 <= uptime / 3600) by (apply Z.div_pos; lia).
  assert (0 <= uptime / 60) by (apply Z.div_pos; lia).
  rewrite Z.quot_div_nonneg by lia. rewrite !Z.rem_mod_nonneg by lia.
  rewrite Z.div_div by lia. auto.
Qed.

(** C9. The uptime renders as days, hours and minutes when its days are
    above zero; as hours and minutes, with no days, when its days are zero
    and its hours above zero; as minutes alone when both are zero. Zero
    seconds render as ["0分钟"], 3661 seconds as ["1小时1分钟"]. The
    days, hours and minutes are those of [formatUptime]; up to 9223372036
    seconds they are the integer parts of the uptime. *)
Theorem formatUptime_spec (uptime : Z) :
  let days := uptimeDays uptime in
  let hours := uptimeHours uptime in
  let minutes := uptimeMinutes uptime in
  (0 < days ->
     formatUptime uptime
     = fmt_d days +:+ "天" +:+ fmt_d hours +:+ "小时" +:+ fmt_d minutes +:+ "分钟")
  /\ (days = 0 -> 0 < hours ->
     formatUptime uptime = fmt_d hours +:+ "小时" +:+ fmt_d minutes +:+ "分钟")
  /\ (days = 0 -> hours = 0 -> formatUptime uptime = fmt_d minutes +:+ "分钟")
  /\ formatUptime 0 = "0分钟"
  /\ formatUptime 3661 = "1小时1分钟"
  /\ (0 <= uptime <= 9223372036 ->
      days = uptime / 86400
      /\ hours = uptime / 3600 mod 24
      /\ minutes = uptime / 60 mod 60).
Proof.
  cbv zeta. unfold formatUptime.
  split; [|split; [|split; [|split; [|split]]]].
  - intros H. apply Z.ltb_lt in H. now rewrite H.
  - intros -> H. apply Z.ltb_lt in H. now rewrite H.
  - intros -> ->. reflexivity.
  - vm_compute. reflexivity.
  - vm_compute. reflexivity.
  - apply uptime_components.
Qed.

(** ** More on the scheduler *)

Lemma wallSeconds_bounds (now : Z) :
  let today := wallSeconds now CST / secondsPerDay in
  (today * secondsPerDay - CST) * nsPerSecond <= now
  < ((today + 1) * secondsPerDay - CST) * nsPerSecond.
Proof.
  cbv zeta. unfold wallSeconds, unixSeconds, secondsPerDay, CST, nsPerSecond.
  pose proof (Z.mod_pos_bound now 1000000000 eq_refl) as Hb.
  rewrite Z.mod_eq in Hb by lia.
  pose proof (Z.mod_pos_bound (now / 1000000000 + 8 * 3600) 86400 eq_refl) as Hc.
  rewrite Z.mod_eq in Hc by lia. lia.
Qed.

(** What [nextReport] answers for a report time that parses: the target
    of the current day, or of the next day once the current instant is
    past it. *)
Lemma nextReport_fire (now : Z) (m : ServerMonitor) (hour min : Z) :
  Parse_1504 (ReportTime (config m)) = Some (hour, min) ->
  let today := wallSeconds now CST / secondsPerDay in
  let day := if targetOfDay today hour min <? now then today + 1 else today in
  nextReport now m = Fire (targetOfDay day hour min) (targetOfDay day hour min - now)
  /\ 0 <= targetOfDay day hour min - now <= 24 * Hour.
Proof.
  intros Hparse. cbv zeta.
  pose proof (Parse_1504_range _ _ _ Hparse) as [Hh Hm].
  pose proof (wallSeconds_bounds now) as Hb. cbv zeta in Hb.
  set (today := wallSeconds now CST / secondsPerDay) in *.
  unfold nextReport. rewrite Hparse.
  destruct (Time_date now CST) as [[y mo] d] eqn:E.
  assert (Ht : Time_Date y mo d hour min 0 0 CST = targetOfDay today hour min).
  { unfold Time_date in E. fold today in E.
    pose proof (days_from_civil_from_days today) as Hrt. rewrite E in Hrt.
    destruct Hrt as [Hrt _]. unfold Time_Date, targetOfDay. rewrite Hrt. lia. }
  rewrite Ht. unfold Time_After, Time_Add, Time_Sub.
  destruct (targetOfDay today hour min <? now) eqn:C.
  - apply Z.ltb_lt in C.
    assert (Hn : targetOfDay today hour min + 24 * Hour = targetOfDay (today + 1) hour min)
      by (unfold targetOfDay, Hour, Minute, Second, secondsPerDay, nsPerSecond; lia).
    rewrite Hn.
    unfold targetOfDay, Hour, Minute, Second, secondsPerDay, CST, nsPerSecond,
      min_int64, max_int64 in *.
    split; [f_equal|]; lia.
  - apply Z.ltb_ge in C.
    unfold targetOfDay, Hour, Minute, Second, secondsPerDay, CST, nsPerSecond,
      min_int64, max_int64 in *.
    split; [f_equal|]; lia.
Qed.

(** X1. The wait of [startScheduledReport] is never negative and never more
    than 24 hours, and the target is the current instant plus the wait:
    a report is never scheduled in the past, and never further than a day
    ahead. *)
Theorem nextReport_wait_bounds (now : Z) (m : ServerMonitor) (targetTime waitDuration : Z) :
  nextReport now m = Fire targetTime waitDuration ->
  0 <= waitDuration <= 24 * Hour /\ targetTime = now + waitDuration.
Proof.
  intros H.
  destruct (Parse_1504 (ReportTime (config m))) as [[hour min]|] eqn:E.
  2:{ unfold nextReport in H. rewrite E in H. discriminate. }
  destruct (nextReport_fire now m hour min E) as [Hf Hb]. cbv zeta in Hf, Hb.
  rewrite Hf in H. injection H as <- <-. split; [exact Hb|lia].
Qed.

Lemma nextReport_wait_bounds_witness :
  0 <= 23 * Hour <= 24 * Hour
  /\ Time_Date 2025 6 27 15 0 0 0 CST = Time_Date 2025 6 26 16 0 0 0 CST + 23 * Hour.
Proof.
  apply (nextReport_wait_bounds (Time_Date 2025 6 26 16 0 0 0 CST)
           (NewServerMonitor (mkConfig "t" 1 "15:00" "" 80 80))
           (Time_Date 2025 6 27 15 0 0 0 CST) (23 * Hour)).
  vm_compute. reflexivity.
Defined.

(** X2. Once a report is due at [targetTime], a cycle that starts after it
    and no later than 24 hours after it plans the next report exactly 24
    hours after [targetTime]: reports follow each other a day apart, none
    skipped and none doubled, however long the report itself took. *)
Theorem nextReport_daily (now now' : Z) (m : ServerMonitor) (targetTime waitDuration : Z) :
  nextReport now m = Fire targetTime waitDuration ->
  targetTime < now' <= targetTime + 24 * Hour ->
  nextReport now' m = Fire (targetTime + 24 * Hour) (targetTime + 24 * Hour - now').
Proof.
  intros H Hnow'.
  destruct (Parse_1504 (ReportTime (config m))) as [[hour min]|] eqn:E.
  2:{ unfold nextReport in H. rewrite E in H. discriminate. }
  pose proof (Parse_1504_range _ _ _ E) as [Hh Hm].
  destruct (nextReport_fire now m hour min E) as [Hf _]. cbv zeta in Hf.
  rewrite Hf in H. injection H as Ht _. clear Hf.
  set (D := if targetOfDay (wallSeconds now CST / secondsPerDay) hour min <? now
            then wallSeconds now CST / secondsPerDay + 1
            else wallSeconds now CST / secondsPerDay) in *.
  destruct (nextReport_fire now' m hour min E) as [Hf' _]. cbv zeta in Hf'.
  rewrite Hf'. clear Hf'.
  pose proof (wallSeconds_bounds now') as Hb. cbv zeta in Hb.
  set (today' := wallSeconds now' CST / secondsPerDay) in *.
  assert (Hday : today' = D \/ today' = D + 1).
  { subst targetTime.
    unfold targetOfDay, Hour, Minute, Second, secondsPerDay, CST, nsPerSecond in *. lia. }
  assert (Hn : targetOfDay D hour min + 24 * Hour = targetOfDay (D + 1) hour min)
    by (unfold targetOfDay, Hour, Minute, Second, secondsPerDay, nsPerSecond; lia).
  subst targetTime. rewrite Hn.
  destruct Hday as [-> | ->].
  - replace (targetOfDay D hour min <? now') with true
      by (symmetry; apply Z.ltb_lt; lia). reflexivity.
  - replace (targetOfDay (D + 1) hour min <? now') with false
      by (symmetry; apply Z.ltb_ge; lia). reflexivity.
Qed.

Lemma nextReport_daily_witness :
  nextReport (Time_Date 2025 6 27 0 30 0 0 CST)
             (NewServerMonitor (mkConfig "t" 1 "15:00" "" 80 80))
  = Fire (Time_Date 2025 6 26 15 0 0 0 CST + 24 * Hour)
         (Time_Date 2025 6 26 15 0 0 0 CST + 24 * Hour - Time_Date 2025 6 27 0 30 0 0 CST).
Proof.
  apply (nextReport_daily (Time_Date 2025 6 26 10 0 0 0 CST)
           (Time_Date 2025 6 27 0 30 0 0 CST)
           (NewServerMonitor (mkConfig "t" 1 "15:00" "" 80 80))
           (Time_Date 2025 6 26 15 0 0 0 CST) (5 * Hour)).
  - vm_compute. reflexivity.
  - vm_compute. split; [reflexivity|discriminate].
Defined.

(** *** The report times the scheduler accepts *)

Lemma parses_back_all (hour min : Z) :
  0 <= hour < 24 -> 0 <= min < 60 -> parses_back hour min = true.
Proof.
  intros Hh Hm.
  assert (H : all_from (fun h => all_from (parses_back h) 60 0) 24 0 = true)
    by (vm_compute; reflexivity).
  pose proof (all_from_spec _ _ _ H hour ltac:(lia)) as H1. cbv beta in H1.
  apply (all_from_spec _ _ _ H1 min). lia.
Qed.

Lemma isDigit_char (a : ascii) :
  isDigit a = true ->
  0 <= digitVal a <= 9 /\ a = ascii_of_nat (48 + Z.to_nat (digitVal a)).
Proof.
  intros H. split; [now apply digitVal_range|].
  unfold isDigit in H. apply andb_true_iff in H as [H1 H2].
  apply Nat.leb_le in H1, H2. unfold digitVal.
  replace (48 + Z.to_nat (Z.of_nat (nat_of_ascii a) - 48))%nat with (nat_of_ascii a) by lia.
  now rewrite ascii_nat_embedding.
Qed.

Lemma two_digits_text (x y : Z) :
  0 <= x <= 9 -> 0 <= y <= 9 ->
  pad0 2 (x * 10 + y)
  = String (ascii_of_nat (48 + Z.to_nat x)) (String (ascii_of_nat (48 + Z.to_nat y)) "")
  /\ digits x = String (ascii_of_nat (48 + Z.to_nat x)) "".
Proof.
  intros Hx Hy.
  assert (Cx : x = 0 \/ x = 1 \/ x = 2 \/ x = 3 \/ x = 4 \/ x = 5 \/ x = 6 \/ x = 7
               \/ x = 8 \/ x = 9) by lia.
  assert (Cy : y = 0 \/ y = 1 \/ y = 2 \/ y = 3 \/ y = 4 \/ y = 5 \/ y = 6 \/ y = 7
               \/ y = 8 \/ y = 9) by lia.
  repeat (destruct Cx as [-> | Cx]); try subst x;
    repeat (destruct Cy as [-> | Cy]); try subst y; split; reflexivity.
Qed.

Lemma app_empty (s : string) : s +:+ "" = s.
Proof.
  induction s as [|a s IH]; [reflexivity|]. rewrite app_cons. now rewrite IH.
Qed.

Lemma getnum_text (s : string) (fixed : bool) (n : Z) (rest : string) :
  getnum s fixed = Some (n, rest) ->
  s = pad0 2 n +:+ rest \/ (fixed = false /\ n < 10 /\ s = digits n +:+ rest).
Proof.
  unfold getnum. destruct s as [|a s1]; [discriminate|].
  destruct (isDigit a) eqn:Da; [|discriminate].
  destruct (isDigit_char a Da) as [Ra Ea].
  destruct (two_digits_text (digitVal a) 0 Ra ltac:(lia)) as [_ E1].
  destruct s1 as [|b s2].
  - destruct fixed; [discriminate|]. intros [= <- <-]. right.
    split; [reflexivity|]. split; [lia|]. rewrite E1, <- Ea. reflexivity.
  - destruct (isDigit b) eqn:Db.
    + intros [= <- <-]. left.
      destruct (isDigit_char b Db) as [Rb Eb].
      destruct (two_digits_text (digitVal a) (digitVal b) Ra Rb) as [E _].
      rewrite E, <- Ea, <- Eb. reflexivity.
    + destruct fixed; [discriminate|]. intros [= <- <-]. right.
      split; [reflexivity|]. split; [lia|]. rewrite E1, <- Ea. reflexivity.
Qed.

(** A report time that parses is the hour in one or two digits, a colon
    and the minute in two digits. *)
Lemma Parse_1504_text (value : string) (hour min : Z) :
  Parse_1504 value = Some (hour, min) ->
  value = clockText hour min \/ (hour < 10 /\ value = shortClockText hour min).
Proof.
  unfold Parse_1504.
  destruct (getnum value false) as [[h rest]|] eqn:E1; [|discriminate].
  cbn. destruct (24 <=? h) eqn:Hh; [discriminate|].
  destruct rest as [|c rest']; [discriminate|].
  destruct (Ascii.eqb_spec c ":") as [->|Hne].
  2:{ destruct c as [[] [] [] [] [] [] [] []]; try discriminate. contradiction. }
  destruct (getnum rest' true) as [[mi rest'']|] eqn:E2; [|discriminate].
  cbn. destruct (60 <=? mi) eqn:Hm; [discriminate|].
  destruct rest''; [|discriminate]. intros [= <- <-].
  apply getnum_text in E2 as [E2|(F & _)]; [|discriminate].
  assert (Er : rest' = pad0 2 mi) by (now rewrite E2, app_empty).
  apply getnum_text in E1 as [E1|(_ & Hlt & E1)]; rewrite E1, Er; auto.
Qed.

(** X3. The scheduler plans a report exactly when the configured report time
    is an hour below 24 in one or two digits, a colon and a minute below
    60 in two digits; on any other text it backs off for one minute,
    whatever the current instant. *)
Theorem nextReport_accepts (now : Z) (m : ServerMonitor) :
  let accepted :=
    exists hour min,
      0 <= hour < 24 /\ 0 <= min < 60
      /\ (ReportTime (config m) = clockText hour min
          \/ (hour < 10 /\ ReportTime (config m) = shortClockText hour min)) in
  (accepted -> exists targetTime waitDuration, nextReport now m = Fire targetTime waitDuration)
  /\ (~ accepted -> nextReport now m = Backoff Minute).
Proof.
  cbv zeta. split.
  - intros (hour & min & Hh & Hm & Hform).
    pose proof (parses_back_all hour min Hh Hm) as Hp.
    unfold parses_back in Hp. apply andb_true_iff in Hp as [P1 P2].
    assert (E : Parse_1504 (ReportTime (config m)) = Some (hour, min)).
    { destruct Hform as [-> | [Hlt ->]].
      - destruct (Parse_1504 (clockText hour min)) as [[h mi]|]; [|discriminate].
        apply andb_true_iff in P1 as [A B]. apply Z.eqb_eq in A, B. now subst.
      - apply orb_true_iff in P2 as [P2|P2]; [apply Z.leb_le in P2; lia|].
        destruct (Parse_1504 (shortClockText hour min)) as [[h mi]|]; [|discriminate].
        apply andb_true_iff in P2 as [A B]. apply Z.eqb_eq in A, B. now subst. }
    destruct (nextReport_fire now m hour min E) as [Hf _]. eauto.
  - intros Hno. unfold nextReport.
    destruct (Parse_1504 (ReportTime (config m))) as [[hour min]|] eqn:E; [|reflexivity].
    exfalso. apply Hno. exists hour, min.
    pose proof (Parse_1504_range _ _ _ E) as [Hh Hm].
    split; [exact Hh|]. split; [exact Hm|]. now apply Parse_1504_text.
Qed.

(** ** More on the alert loop *)

(** X4. Over any run of checks of one key, for any threshold, [Fired] and
    [Cleared] take turns: from a clear flag there are as many [Fired] as
    [Cleared] or one more, from a set flag as many [Cleared] as [Fired] or
    one more; and the run sends one message for each [Fired], none else. *)
Theorem runChecks_alternate (key : string) (text : float64 -> string)
    (threshold : Z) (values : list float64) (sent : gmap string bool) :
  let run := snd (runChecks key text threshold values sent) in
  let fired := length (List.filter isFired run) in
  let cleared := length (List.filter isCleared run) in
  (if alertFlag sent key
   then (fired <= cleared <= fired + 1)%nat
   else (cleared <= fired <= cleared + 1)%nat)
  /\ (if alertFlag (fst (runChecks key text threshold values sent)) key
      then if alertFlag sent key then fired = cleared else fired = S cleared
      else if alertFlag sent key then cleared = S fired else fired = cleared)
  /\ length (concat (map snd run)) = fired.
Proof.
  cbv zeta. revert sent.
  induction values as [|v rest IH]; intros sent.
  - cbn. destruct (alertFlag sent key); repeat split; lia.
  - cbn [runChecks]. unfold evaluate.
    destruct (alertCheck_cases key text v threshold sent)
      as [(_ & Hf & E)|[(Hn & Hb & E)|(Hn & Hb & E)]]; rewrite E; cbn [fst snd].
    + specialize (IH (<[key := true]> sent)).
      rewrite alertFlag_insert in *. rewrite Hf.
      destruct (runChecks key text threshold rest (<[key:=true]> sent)) as [s2 trs].
      cbn [fst snd transition] in *. cbn.
      destruct (alertFlag s2 key); destruct IH as (I1 & I2 & I3); rewrite I3;
        repeat split; lia.
    + specialize (IH (<[key := false]> sent)).
      rewrite alertFlag_insert in *.
      destruct (runChecks key text threshold rest (<[key:=false]> sent)) as [s2 trs].
      cbn [fst snd] in *.
      destruct (alertFlag sent key); cbn;
        destruct (alertFlag s2 key); destruct IH as (I1 & I2 & I3); rewrite ?I3;
        repeat split; try lia.
    + specialize (IH sent).
      destruct (runChecks key text threshold rest sent) as [s2 trs].
      cbn [fst snd] in *.
      destruct (alertFlag sent key); cbn;
        destruct (alertFlag s2 key); destruct IH as (I1 & I2 & I3); rewrite ?I3;
        repeat split; try lia.
Qed.

Lemma alertCheck_out (key : string) (text : float64 -> string)
    (value : float64) (threshold : Z) (sent : gmap string bool) :
  (Fgt value (float64_of_int threshold) = true /\ alertFlag sent key = false
   /\ snd (alertCheck key text value threshold sent) = [text value])
  \/ ((Fgt value (float64_of_int threshold) = false \/ alertFlag sent key = true)
      /\ snd (alertCheck key text value threshold sent) = []).
Proof.
  destruct (alertCheck_cases key text value threshold sent)
    as [(Ha & Hf & E)|[(Hn & Hb & E)|(Hn & Hb & E)]]; rewrite E; cbn; auto.
Qed.

Lemma realTimeAlertTick_frame (p : Probe) (m : ServerMonitor) (k : string) :
  k <> "cpu" -> k <> "mem" ->
  alertSent (fst (realTimeAlertTick p m)) !! k = alertSent m !! k.
Proof.
  intros Hc Hm. unfold realTimeAlertTick.
  pose proof (alertCheck_frame "cpu" k cpuAlertText (getCPUUsage p)
                (CPUThreshold (config m)) (alertSent m) Hc) as F1.
  destruct (alertCheck "cpu" _ _ _ _) as [sent1 out1]. cbn [fst] in F1.
  pose proof (alertCheck_frame "mem" k memAlertText (mem_UsedPercent (getMemoryInfo p))
                (MemThreshold (config m)) sent1 Hm) as F2.
  destruct (alertCheck "mem" _ _ _ _) as [sent2 out2]. cbn [fst] in F2.
  cbn. congruence.
Qed.

(** X5. The loop of [startRealTimeAlert], over any number of ticks: it never
    changes the configuration; it touches no entry of [alertSent] but
    ["cpu"] and ["mem"]; it sends at most two messages a tick; and it
    sends nothing at all as long as no reading is above its threshold,
    whatever the flags were. *)
Theorem startRealTimeAlert_quiet (ticks : list Probe) (m : ServerMonitor) :
  config (fst (startRealTimeAlert ticks m)) = config m
  /\ (forall k, k <> "cpu" -> k <> "mem" ->
        alertSent (fst (startRealTimeAlert ticks m)) !! k = alertSent m !! k)
  /\ (length (snd (startRealTimeAlert ticks m)) <= 2 * length ticks)%nat
  /\ (Forall (fun p =>
        Fgt (getCPUUsage p) (float64_of_int (CPUThreshold (config m))) = false
        /\ Fgt (mem_UsedPercent (getMemoryInfo p))
               (float64_of_int (MemThreshold (config m))) = false) ticks ->
      snd (startRealTimeAlert ticks m) = []).
Proof.
  revert m. induction ticks as [|p rest IH]; intros m.
  - cbn. repeat split; auto.
  - cbn [startRealTimeAlert].
    pose proof (realTimeAlertTick_config p m) as Hc.
    pose proof (realTimeAlertTick_frame p m) as Hfr.
    pose proof (realTimeAlertTick_independent p m) as Hind. cbv zeta in Hind.
    destruct Hind as (_ & _ & Hout).
    destruct (realTimeAlertTick p m) as [m1 out1]. cbn [fst snd] in Hc, Hfr, Hout.
    specialize (IH m1). destruct (startRealTimeAlert rest m1) as [m2 out2].
    cbn [fst snd] in *. destruct IH as (I1 & I2 & I3 & I4).
    split; [congruence|]. split; [|split].
    + intros k K1 K2. rewrite I2, Hfr; auto.
    + rewrite length_app, Hout, length_app.
      destruct (alertCheck_out "cpu" cpuAlertText (getCPUUsage p)
                  (CPUThreshold (config m)) (alertSent m)) as [(_ & _ & ->)|(_ & ->)];
        destruct (alertCheck_out "mem" memAlertText (mem_UsedPercent (getMemoryInfo p))
                    (MemThreshold (config m)) (alertSent m)) as [(_ & _ & ->)|(_ & ->)];
        cbn; lia.
    + intros Hq. apply List.Forall_cons_iff in Hq as [[Q1 Q2] Qrest].
      rewrite I4 by (rewrite Hc; exact Qrest). rewrite app_nil_r, Hout.
      destruct (alertCheck_out "cpu" cpuAlertText (getCPUUsage p)
                  (CPUThreshold (config m)) (alertSent m)) as [(A & _)|(_ & ->)];
        [congruence|].
      destruct (alertCheck_out "mem" memAlertText (mem_UsedPercent (getMemoryInfo p))
                  (MemThreshold (config m)) (alertSent m)) as [(A & _)|(_ & ->)];
        [congruence|reflexivity].
Qed.

(** X6. A retrieval that fails is read as 0 percent. With a threshold of 10
    or more, a tick whose CPU retrieval fails sends no CPU alert but
    clears a set CPU flag, so that a breach which is still going on is
    announced once more at the next reading above the threshold. *)
Theorem failed_retrieval_rearms (pf p : Probe) (m : ServerMonitor) :
  10 <= CPUThreshold (config m) <= max_int64 ->
  failed (snd (cpu_Percent pf)) = true ->
  alertFlag (alertSent m) "cpu" = true ->
  Fgt (getCPUUsage p) (float64_of_int (CPUThreshold (config m))) = true ->
  let m1 := fst (realTimeAlertTick pf m) in
  alertFlag (alertSent m1) "cpu" = false
  /\ ~ In (cpuAlertText (getCPUUsage pf)) (snd (realTimeAlertTick pf m))
  /\ In (cpuAlertText (getCPUUsage p)) (snd (realTimeAlertTick p m1))
  /\ alertFlag (alertSent (fst (realTimeAlertTick p m1))) "cpu" = true.
Proof.
  intros Hthr Hfail Hflag Habove. cbv zeta.
  assert (H0 : getCPUUsage pf = zeroF).
  { unfold getCPUUsage. destruct (cpu_Percent pf) as [percent err].
    cbn in Hfail. now rewrite Hfail. }
  assert (Hlow : Fle zeroF (float64_of_int (wrap64 (CPUThreshold (config m) - 10))) = true).
  { rewrite wrap64_id by (unfold in_int64, min_int64, max_int64 in *; lia).
    change zeroF with (float64_of_int 0). apply float64_of_int_mono. lia. }
  assert (Hcheck : alertCheck "cpu" cpuAlertText (getCPUUsage pf)
                     (CPUThreshold (config m)) (alertSent m)
                   = (<["cpu" := false]> (alertSent m), [])).
  { unfold alertCheck. rewrite Hflag, andb_false_r, H0, Hlow. reflexivity. }
  pose proof (realTimeAlertTick_config pf m) as Hc.
  destruct (realTimeAlertTick_independent pf m) as (Hcpu & _ & Hout).
  rewrite Hcheck in Hcpu, Hout. cbn [fst snd] in Hcpu, Hout.
  rewrite alertFlag_insert in Hcpu.
  split; [exact Hcpu|]. split.
  { rewrite Hout. cbn [app].
    destruct (alertCheck_out "mem" memAlertText (mem_UsedPercent (getMemoryInfo pf))
                (MemThreshold (config m)) (alertSent m)) as [(_ & _ & ->)|(_ & ->)];
      cbn; [|tauto].
    intros [E|[]]. vm_compute in E. discriminate. }
  set (m1 := fst (realTimeAlertTick pf m)) in *.
  destruct (realTimeAlertTick_independent p m1) as (Hcpu1 & _ & Hout1).
  assert (Hfire : alertCheck "cpu" cpuAlertText (getCPUUsage p)
                    (CPUThreshold (config m1)) (alertSent m1)
                  = (<["cpu" := true]> (alertSent m1), [cpuAlertText (getCPUUsage p)])).
  { unfold alertCheck. rewrite Hc, Habove, Hcpu. reflexivity. }
  rewrite Hfire in Hcpu1, Hout1. cbn [fst snd] in Hcpu1, Hout1.
  rewrite alertFlag_insert in Hcpu1.
  split; [|exact Hcpu1]. rewrite Hout1. cbn. auto.
Qed.

Lemma failed_retrieval_rearms_witness :
  let pf := sampleProbe ([], Some "timeout") (FFin 20) in
  let p := sampleProbe ([FFin 85], None) (FFin 20) in
  alertFlag (alertSent (fst (realTimeAlertTick pf sampleMonitor))) "cpu" = false
  /\ In (cpuAlertText (FFin 85))
        (snd (realTimeAlertTick p (fst (realTimeAlertTick pf sampleMonitor)))).
Proof.
  cbv zeta.
  destruct (failed_retrieval_rearms (sampleProbe ([], Some "timeout") (FFin 20))
              (sampleProbe ([FFin 85], None) (FFin 20)) sampleMonitor)
    as (H1 & _ & H3 & _).
  - vm_compute. split; discriminate.
  - reflexivity.
  - reflexivity.
  - reflexivity.
  - exact (conj H1 H3).
Defined.

(** ** More on the configuration *)

Lemma digit_char (d : Z) :
  0 <= d <= 9 ->
  isDigit (ascii_of_nat (48 + Z.to_nat d)) = true
  /\ digitVal (ascii_of_nat (48 + Z.to_nat d)) = d
  /\ Ascii.eqb (ascii_of_nat (48 + Z.to_nat d)) "+" = false
  /\ Ascii.eqb (ascii_of_nat (48 + Z.to_nat d)) "-" = false.
Proof.
  intros Hd.
  assert (C : d = 0 \/ d = 1 \/ d = 2 \/ d = 3 \/ d = 4 \/ d = 5 \/ d = 6 \/ d = 7
              \/ d = 8 \/ d = 9) by lia.
  repeat (destruct C as [-> | C]); try subst d; repeat split; reflexivity.
Qed.

Lemma digits_fuel_S (fuel : nat) (n : Z) (acc : string) :
  digits_fuel (S fuel) n acc =
  if n <? 10 then String (ascii_of_nat (48 + Z.to_nat (n mod 10))) acc
  else digits_fuel fuel (n / 10) (String (ascii_of_nat (48 + Z.to_nat (n mod 10))) acc).
Proof. reflexivity. Qed.

(** Reading the digits written for [n] gives [n] back, before whatever
    follows them. *)
Lemma parseDigits_digits_fuel (fuel : nat) (n : Z) (acc : string) :
  0 <= n < 10 * 2 ^ Z.of_nat fuel ->
  parseDigits (digits_fuel (S fuel) n acc) 0 = parseDigits acc n
  /\ exists c rest, digits_fuel (S fuel) n acc = String c rest /\ isDigit c = true.
Proof.
  revert n acc. induction fuel as [|fuel IH]; intros n acc Hn.
  - rewrite digits_fuel_S. change (2 ^ Z.of_nat 0) with 1 in Hn.
    replace (n <? 10) with true by (symmetry; apply Z.ltb_lt; lia).
    rewrite Z.mod_small by lia.
    destruct (digit_char n ltac:(lia)) as (D1 & D2 & _).
    cbn [parseDigits]. rewrite D1, D2. split; [f_equal; lia|eauto].
  - rewrite digits_fuel_S.
    assert (Hm : 0 <= n mod 10 <= 9) by (pose proof (Z.mod_pos_bound n 10); lia).
    destruct (digit_char (n mod 10) Hm) as (D1 & D2 & _).
    destruct (n <? 10) eqn:C.
    + apply Z.ltb_lt in C. rewrite Z.mod_small by lia.
      rewrite Z.mod_small in D1, D2 by lia.
      cbn [parseDigits]. rewrite D1, D2. split; [f_equal; lia|eauto].
    + apply Z.ltb_ge in C.
      assert (Hq : 0 <= n / 10 < 10 * 2 ^ Z.of_nat fuel).
      { split; [apply Z.div_pos; lia|].
        apply Z.div_lt_upper_bound; [lia|].
        rewrite Nat2Z.inj_succ, Z.pow_succ_r in Hn by lia. lia. }
      destruct (IH (n / 10) (String (ascii_of_nat (48 + Z.to_nat (n mod 10))) acc) Hq)
        as [E Hd].
      split; [|exact Hd].
      rewrite E. cbn [parseDigits]. rewrite D1, D2. f_equal.
      pose proof (Z.div_mod n 10). lia.
Qed.

Lemma parseDigits_digits (n : Z) :
  0 <= n ->
  parseDigits (digits n) 0 = Some n
  /\ exists c rest, digits n = String c rest /\ isDigit c = true.
Proof.
  intros Hn. unfold digits.
  assert (Hb : 0 <= n < 10 * 2 ^ Z.of_nat (Z.to_nat (Z.log2 n))).
  { split; [exact Hn|]. rewrite Z2Nat.id by apply Z.log2_nonneg.
    destruct (Z.eq_dec n 0) as [->|Hne]; [cbn; lia|].
    pose proof (Z.log2_spec n ltac:(lia)) as [_ Hu].
    rewrite Z.pow_succ_r in Hu by apply Z.log2_nonneg. lia. }
  destruct (parseDigits_digits_fuel _ n EmptyString Hb) as [E Hd].
  split; [rewrite E; reflexivity|exact Hd].
Qed.

Lemma ParseInt_minus (c : ascii) (rest : string) :
  ParseInt (String "-" (String c rest)) =
  un ← parseDigits (String c rest) 0;
  if (min_int64 <=? - un) && (- un <=? max_int64) then Some (- un) else None.
Proof. reflexivity. Qed.

Lemma ParseInt_plain (c : ascii) (rest : string) :
  Ascii.eqb c "+" = false -> Ascii.eqb c "-" = false ->
  ParseInt (String c rest) =
  un ← parseDigits (String c rest) 0;
  if (min_int64 <=? un) && (un <=? max_int64) then Some un else None.
Proof. intros P M. unfold ParseInt. rewrite P, M. reflexivity. Qed.

(** [strconv.Atoi] reads back what [%d] writes, over the whole of [int]. *)
Lemma ParseInt_fmt_d (n : Z) : in_int64 n -> ParseInt (fmt_d n) = Some n.
Proof.
  intros Hr. unfold fmt_d. unfold in_int64 in Hr.
  assert (Hin : (min_int64 <=? n) && (n <=? max_int64) = true)
    by (apply andb_true_iff; split; apply Z.leb_le; lia).
  destruct (n <? 0) eqn:C.
  - apply Z.ltb_lt in C.
    destruct (parseDigits_digits (- n) ltac:(lia)) as (E & c & rest & Ed & Dc).
    rewrite app_cons, app_nil, Ed, ParseInt_minus, <- Ed, E. cbn.
    replace (- - n) with n by lia. now rewrite Hin.
  - apply Z.ltb_ge in C.
    destruct (parseDigits_digits n C) as (E & c & rest & Ed & Dc).
    destruct (isDigit_char c Dc) as [R Ec].
    destruct (digit_char (digitVal c) R) as (_ & _ & P & M). rewrite <- Ec in P, M.
    rewrite Ed, (ParseInt_plain c rest P M), <- Ed, E. cbn. now rewrite Hin.
Qed.

(** X7. Thresholds are taken as given: whatever [int] the variable
    [CPU_THRESHOLD] (or [MEM_THRESHOLD]) holds in decimal becomes the
    threshold, negative values and values above 100 included; no range is
    checked. *)
Theorem loadConfig_threshold_unchecked (env : gmap string string) (n : Z)
    (cfg : Config) :
  in_int64 n ->
  loadConfig env ReadError = inl cfg ->
  (Getenv env "CPU_THRESHOLD" = fmt_d n -> CPUThreshold cfg = n)
  /\ (Getenv env "MEM_THRESHOLD" = fmt_d n -> MemThreshold cfg = n).
Proof.
  intros Hr Hload.
  assert (E : cfg = fromEnv env).
  { unfold loadConfig in Hload.
    destruct (String.eqb (BotToken (fromEnv env)) ""); [discriminate|].
    destruct (ChatID (fromEnv env) =? 0); [discriminate|]. now injection Hload. }
  subst cfg. rewrite fromEnv_fields. cbn [CPUThreshold MemThreshold].
  assert (Hne : String.eqb (fmt_d n) "" = false).
  { unfold fmt_d. destruct (n <? 0) eqn:C; [reflexivity|].
    apply Z.ltb_ge in C.
    destruct (parseDigits_digits n C) as (_ & c & rest & -> & _). reflexivity. }
  unfold envSetsInt. split; intros ->; rewrite Hne, (ParseInt_fmt_d n Hr); reflexivity.
Qed.

Lemma loadConfig_threshold_unchecked_witness :
  loadConfig thresholdEnv ReadError
  = inl (mkConfig "token" 7 "15:00" "🖥️ 服务器状态报告" (-5) 1000)
  /\ CPUThreshold (mkConfig "token" 7 "15:00" "🖥️ 服务器状态报告" (-5) 1000) = -5.
Proof.
  assert (H : loadConfig thresholdEnv ReadError
              = inl (mkConfig "token" 7 "15:00" "🖥️ 服务器状态报告" (-5) 1000))
    by (vm_compute; reflexivity).
  split; [exact H|].
  apply (loadConfig_threshold_unchecked thresholdEnv (-5) _ ltac:(vm_compute; split; discriminate) H).
  reflexivity.
Defined.

(** X8. A configuration that loads has a token and a chat: [loadConfig]
    never returns one with an empty token or a zero chat id. A
    [config.json] that sets the token to the empty string, or the chat id
    to zero, makes loading fail even when the environment gives both; and
    with no file, a [CHAT_ID] that is not a number is the same as none. *)
Theorem loadConfig_requires (env : gmap string string) (file : ConfigFile) :
  (forall cfg, loadConfig env file = inl cfg -> BotToken cfg <> "" /\ ChatID cfg <> 0)
  /\ (bot_token (decodedOf file) = Some "" ->
      loadConfig env file = inr "必须设置 BOT_TOKEN")
  /\ (chat_id (decodedOf file) = Some 0 -> exists msg, loadConfig env file = inr msg)
  /\ (ParseInt (Getenv env "CHAT_ID") = None -> exists msg, loadConfig env ReadError = inr msg).
Proof.
  assert (E : forall f, loadConfig env f =
            let c := json_Unmarshal (decodedOf f) (fromEnv env) in
            if String.eqb (BotToken c) "" then inr "必须设置 BOT_TOKEN"
            else if ChatID c =? 0 then inr "必须设置 CHAT_ID" else inl c).
  { intros f. unfold loadConfig. destruct f; [destruct (fromEnv env)|]; reflexivity. }
  split; [|split; [|split]].
  - intros cfg H. rewrite E in H. cbv zeta in H.
    destruct (String.eqb_spec (BotToken (json_Unmarshal (decodedOf file) (fromEnv env))) "")
      as [|Hb]; [discriminate|].
    destruct (Z.eqb_spec (ChatID (json_Unmarshal (decodedOf file) (fromEnv env))) 0)
      as [|Hc]; [discriminate|].
    injection H as <-. auto.
  - intros Hf. rewrite E. cbv zeta. unfold json_Unmarshal. cbn [BotToken].
    rewrite Hf. reflexivity.
  - intros Hf. rewrite E. cbv zeta. unfold json_Unmarshal. cbn [BotToken ChatID].
    rewrite Hf. cbn [default].
    destruct (String.eqb _ ""); eauto.
  - intros Hp. rewrite E. cbv zeta. cbn [decodedOf]. rewrite fromEnv_fields.
    unfold json_Unmarshal. cbn.
    unfold envSetsInt. rewrite Hp.
    destruct (String.eqb (default "" (envSetsString env "BOT_TOKEN")) ""); [eauto|].
    destruct (String.eqb (Getenv env "CHAT_ID") ""); cbn; eauto.
Qed.

(** ** More on IP masking *)

Lemma Count_app (s t : string) (c : ascii) :
  strings.Count (s +:+ t) c = (strings.Count s c + strings.Count t c)%nat.
Proof.
  induction s as [|a s IH]; [reflexivity|].
  rewrite app_cons. cbn [strings.Count]. rewrite IH. lia.
Qed.

Lemma Contains_Count (s : string) (c : ascii) :
  strings.Contains s c = false <-> strings.Count s c = 0%nat.
Proof.
  induction s as [|a s IH]; cbn; [tauto|].
  destruct (Ascii.eqb a c); cbn; [split; [discriminate|lia]|exact IH].
Qed.

Lemma Count_ReplaceAll_delete (s : string) (c : ascii) :
  strings.Count (strings.ReplaceAll s c "") c = 0%nat.
Proof.
  induction s as [|a s IH]; [reflexivity|]. cbn [strings.ReplaceAll].
  destruct (Ascii.eqb a c) eqn:E; [rewrite app_nil; exact IH|].
  cbn [strings.Count]. rewrite E, IH. reflexivity.
Qed.

Lemma Count_ReplaceAll_other (s : string) (c d : ascii) :
  (strings.Count (strings.ReplaceAll s c "") d <= strings.Count s d)%nat.
Proof.
  induction s as [|a s IH]; [reflexivity|]. cbn [strings.ReplaceAll].
  destruct (Ascii.eqb a c) eqn:E.
  - rewrite app_nil. cbn [strings.Count]. lia.
  - cbn [strings.Count]. lia.
Qed.

Lemma Split_no_sep (s : string) (c : ascii) :
  strings.Count s c = 0%nat -> strings.Split s c = [s].
Proof.
  induction s as [|a s IH]; [reflexivity|]. cbn [strings.Count strings.Split].
  destruct (Ascii.eqb a c); [discriminate|]. intros H. rewrite IH by exact H. reflexivity.
Qed.

(** [maskIP] of ["x.x.x."] or ["..."] before a text with no dot. *)
Lemma maskIP_x (last : string) :
  strings.Count last "." = 0%nat ->
  maskIP ("x.x.x." +:+ last) = Some ("x.x.x." +:+ last)
  /\ maskIP ("..." +:+ last) = Some ("x.x.x." +:+ last).
Proof.
  intros H. unfold maskIP.
  rewrite !Count_app, H.
  change (strings.Count "x.x.x." ".") with 3%nat.
  change (strings.Count "..." ".") with 3%nat. cbn [Nat.add Nat.eqb].
  change ("x.x.x." +:+ last) with
    (String "x" (String "." (String "x" (String "." (String "x" (String "." last)))))) at 1.
  change ("..." +:+ last) with (String "." (String "." (String "." last))) at 1.
  cbn [strings.Split Ascii.eqb Bool.eqb]. rewrite (Split_no_sep last "." H).
  split; reflexivity.
Qed.

(** X9. What [maskIP] shows of an address with colons (and not exactly three
    dots): the marker ["..."] and at most 8 bytes, the last ones of the
    address without its colons; no colon is ever shown. *)
Theorem maskIP_colons_shown (ip : string) :
  strings.Count ip "." <> 3%nat -> strings.Contains ip ":" = true ->
  exists front shown,
    maskIP ip = Some ("..." +:+ shown)
    /\ strings.ReplaceAll ip ":" "" = front +:+ shown
    /\ (String.length shown <= 8)%nat
    /\ (front <> "" -> String.length shown = 8%nat)
    /\ strings.Contains shown ":" = false.
Proof.
  intros Hn Hc. unfold maskIP. apply Nat.eqb_neq in Hn. rewrite Hn, Hc.
  set (stripped := strings.ReplaceAll ip ":" "").
  assert (H0 : strings.Count stripped ":" = 0%nat) by apply Count_ReplaceAll_delete.
  destruct (8 <? String.length stripped)%nat eqn:L.
  - apply Nat.ltb_lt in L.
    destruct (slice_from_suffix stripped (String.length stripped - 8)) as (front & E & _ & Hl);
      [lia|].
    exists front, (slice_from stripped (String.length stripped - 8)).
    split; [reflexivity|]. split; [exact E|]. split; [lia|]. split; [intros _; lia|].
    apply Contains_Count. rewrite E, Count_app in H0. lia.
  - apply Nat.ltb_ge in L. exists EmptyString, stripped.
    split; [reflexivity|]. split; [reflexivity|]. split; [exact L|].
    split; [congruence|]. now apply Contains_Count.
Qed.

Lemma maskIP_colons_shown_witness :
  exists front shown,
    maskIP "2001:0db8:85a3:0000:0000:8a2e:0370:7334" = Some ("..." +:+ shown)
    /\ strings.ReplaceAll "2001:0db8:85a3:0000:0000:8a2e:0370:7334" ":" "" = front +:+ shown
    /\ (String.length shown <= 8)%nat
    /\ (front <> "" -> String.length shown = 8%nat)
    /\ strings.Contains shown ":" = false.
Proof.
  apply (maskIP_colons_shown "2001:0db8:85a3:0000:0000:8a2e:0370:7334").
  - vm_compute. discriminate.
  - reflexivity.
Defined.

(** X10. Masking twice. A masked dotted quad masks to itself. A masked
    address with colons does not: its marker ["..."] counts as three dots,
    so that masking it again (when the address had no dot) turns the
    marker into ["x.x.x."]. *)
Theorem maskIP_twice (ip masked : string) :
  maskIP ip = Some masked ->
  (strings.Count ip "." = 3%nat -> maskIP masked = Some masked)
  /\ (strings.Count ip "." = 0%nat -> strings.Contains ip ":" = true ->
      exists shown,
        masked = "..." +:+ shown /\ maskIP masked = Some ("x.x.x." +:+ shown)).
Proof.
  intros Hm. split.
  - intros H3. destruct (maskIP_dotted ip H3) as (pre & last & _ & Hc & E).
    rewrite E in Hm. injection Hm as <-. apply (maskIP_x last Hc).
  - intros H0 Hc.
    assert (Hs : strings.Count (strings.ReplaceAll ip ":" "") "." = 0%nat)
      by (pose proof (Count_ReplaceAll_other ip ":" "."); lia).
    unfold maskIP in Hm. rewrite H0, Hc in Hm. cbn [Nat.eqb] in Hm.
    destruct (8 <? String.length (strings.ReplaceAll ip ":" ""))%nat eqn:L.
    + apply Nat.ltb_lt in L.
      destruct (slice_from_suffix (strings.ReplaceAll ip ":" "")
                  (String.length (strings.ReplaceAll ip ":" "") - 8))
        as (front & E & _); [lia|].
      injection Hm as <-. eexists. split; [reflexivity|].
      apply maskIP_x. rewrite E, Count_app in Hs. lia.
    + injection Hm as <-. eexists. split; [reflexivity|]. now apply maskIP_x.
Qed.

Lemma maskIP_twice_witness :
  maskIP "x.x.x.77" = Some "x.x.x.77"
  /\ exists shown, "...1" = "..." +:+ shown /\ maskIP "...1" = Some ("x.x.x." +:+ shown).
Proof.
  split.
  - apply (maskIP_twice "203.0.113.77" "x.x.x.77" eq_refl); reflexivity.
  - apply (maskIP_twice "::1" "...1" eq_refl); reflexivity.
Defined.

(** ** More on the location lookup *)

(** Splitting at a byte undoes joining with it, for pieces without it. *)
Lemma Split_Join (lines : list string) (c : ascii) :
  lines <> [] ->
  Forall (fun l => strings.Count l c = 0%nat) lines ->
  strings.Split (strings.Join lines (String c "")) c = lines.
Proof.
  intros Hne Hall. induction Hall as [|l rest Hl Hrest IH]; [congruence|].
  destruct rest as [|l2 rest'].
  - cbn [strings.Join]. now apply Split_no_sep.
  - specialize (IH ltac:(discriminate)).
    change (strings.Join (l :: l2 :: rest') (String c ""))
      with (l +:+ String c "" +:+ strings.Join (l2 :: rest') (String c "")).
    revert IH. generalize (strings.Join (l2 :: rest') (String c "")) as tail.
    intros tail IH. clear Hrest Hne.
    induction l as [|a l IHl].
    + rewrite app_nil, app_cons, app_nil. cbn [strings.Split].
      rewrite Ascii.eqb_refl. now rewrite IH.
    + cbn [strings.Count] in Hl. destruct (Ascii.eqb a c) eqn:E; [discriminate|].
      rewrite app_cons. cbn [strings.Split]. rewrite E.
      rewrite IHl by exact Hl. reflexivity.
Qed.

Lemma TrimPrefix_app (prefix v : string) :
  strings.HasPrefix (prefix +:+ v) prefix = true
  /\ strings.TrimPrefix (prefix +:+ v) prefix = v.
Proof.
  assert (H : strings.HasPrefix (prefix +:+ v) prefix = true).
  { induction prefix as [|a p IH]; [rewrite app_nil; destruct v; reflexivity|].
    rewrite app_cons. cbn [strings.HasPrefix]. now rewrite Ascii.eqb_refl, IH. }
  split; [exact H|]. unfold strings.TrimPrefix. rewrite H.
  induction prefix as [|a p IH].
  - rewrite app_nil. cbn [String.length]. rewrite Nat.sub_0_r. apply substring_all.
  - rewrite app_cons.
    change (String.substring (String.length (String a p))
              (String.length (String a (p +:+ v)) - String.length (String a p))
              (String a (p +:+ v)))
      with (String.substring (String.length p)
              (String.length (p +:+ v) - String.length p) (p +:+ v)).
    apply IH. clear. induction p as [|b p IH]; [rewrite app_nil; destruct v; reflexivity|].
    rewrite app_cons. cbn [strings.HasPrefix]. now rewrite Ascii.eqb_refl, IH.
Qed.

Lemma scanLine_keeps_IP (lines : list string) (info : LocationInfo) :
  Forall (fun l => strings.HasPrefix l "ip=" = false) lines ->
  IP (fold_left scanLine lines info) = IP info.
Proof.
  intros H. revert info. induction H as [|l rest Hl Hrest IH]; intros info; [reflexivity|].
  cbn [fold_left]. rewrite IH. unfold scanLine. rewrite Hl.
  destruct (strings.HasPrefix l "loc="); [reflexivity|].
  destruct (strings.HasPrefix l "colo="); reflexivity.
Qed.

Lemma scanLine_keeps_Location (lines : list string) (info : LocationInfo) :
  Forall (fun l => strings.HasPrefix l "loc=" = false) lines ->
  Location (fold_left scanLine lines info) = Location info.
Proof.
  intros H. revert info. induction H as [|l rest Hl Hrest IH]; intros info; [reflexivity|].
  cbn [fold_left]. rewrite IH. unfold scanLine. rewrite Hl.
  destruct (strings.HasPrefix l "ip="); [reflexivity|].
  destruct (strings.HasPrefix l "colo="); reflexivity.
Qed.

(** X11. [getLocationInfo] on a trace that was read: the IP is what follows
    ["ip="] on the last line that starts with it, the location what
    follows ["loc="] on the last line that starts with it, wherever those
    lines stand among the others. *)
Theorem getLocationInfo_reads (p : Probe) (before after : list string)
    (key value : string) :
  http_Trace p
  = Body (strings.Join (before ++ [key +:+ value] ++ after)%list (String newline "")) ->
  Forall (fun l => strings.Count l newline = 0%nat) (before ++ [key +:+ value] ++ after)%list ->
  value <> "" ->
  (key = "ip=" -> Forall (fun l => strings.HasPrefix l "ip=" = false) after ->
     IP (getLocationInfo p) = value)
  /\ (key = "loc=" -> Forall (fun l => strings.HasPrefix l "loc=" = false) after ->
     Location (getLocationInfo p) = value).
Proof.
  intros Hbody Hlines Hne.
  assert (Hsplit : strings.Split
            (strings.Join (before ++ [key +:+ value] ++ after)%list (String newline ""))
            newline = (before ++ [key +:+ value] ++ after)%list).
  { apply Split_Join; [|exact Hlines]. destruct before; discriminate. }
  unfold getLocationInfo. rewrite Hbody, Hsplit.
  rewrite !fold_left_app. cbn [fold_left].
  set (info0 := fold_left scanLine before _).
  apply String.eqb_neq in Hne.
  split; intros -> Hafter.
  - assert (E : IP (fold_left scanLine after (scanLine info0 ("ip=" +:+ value))) = value).
    { rewrite scanLine_keeps_IP by exact Hafter. unfold scanLine.
      destruct (TrimPrefix_app "ip=" value) as [-> ->]. reflexivity. }
    set (info := fold_left scanLine after _) in *.
    rewrite E, Hne. cbn [IP Location].
    destruct (String.eqb (Location info) ""); cbn [IP]; exact E.
  - assert (E : Location (fold_left scanLine after (scanLine info0 ("loc=" +:+ value)))
                = value).
    { rewrite scanLine_keeps_Location by exact Hafter. unfold scanLine.
      change (strings.HasPrefix ("loc=" +:+ value) "ip=") with false. cbv iota.
      destruct (TrimPrefix_app "loc=" value) as [-> ->]. reflexivity. }
    set (info := fold_left scanLine after _) in *.
    destruct (String.eqb (IP info) ""); cbn [IP Location]; rewrite E, Hne;
      cbn [Location]; auto.
Qed.

Lemma getLocationInfo_reads_witness :
  IP (getLocationInfo (traceProbe ["fl=29f91"; "h=www.cloudflare.com"]
                         "ip=" "203.0.113.77" ["ts=1750921200.5"; "loc=US"; "colo=LAX"]))
  = "203.0.113.77".
Proof.
  apply (getLocationInfo_reads
           (traceProbe ["fl=29f91"; "h=www.cloudflare.com"]
              "ip=" "203.0.113.77" ["ts=1750921200.5"; "loc=US"; "colo=LAX"])
           ["fl=29f91"; "h=www.cloudflare.com"] ["ts=1750921200.5"; "loc=US"; "colo=LAX"]
           "ip=" "203.0.113.77").
  - reflexivity.
  - repeat constructor.
  - discriminate.
  - reflexivity.
  - repeat constructor.
Defined.

(** ** More on the uptime *)

(** X12. Up to 9223372036 seconds, the days, hours and minutes that
    [formatUptime] prints are the uptime with its seconds dropped: hours
    stay below 24, minutes below 60, and together they give the uptime
    back to within a minute. *)
Theorem formatUptime_components (uptime : Z) :
  0 <= uptime <= 9223372036 ->
  let days := uptimeDays uptime in
  let hours := uptimeHours uptime in
  let minutes := uptimeMinutes uptime in
  0 <= days /\ 0 <= hours < 24 /\ 0 <= minutes < 60
  /\ days * 86400 + hours * 3600 + minutes * 60 <= uptime
     < days * 86400 + hours * 3600 + minutes * 60 + 60
  /\ (uptime < 60 -> formatUptime uptime = "0分钟").
Proof.
  intros Hu. cbv zeta.
  destruct (uptime_components uptime Hu) as (Ed & Eh & Em).
  assert (Hd : 0 <= uptimeDays uptime) by (rewrite Ed; apply Z.div_pos; lia).
  assert (Hh : 0 <= uptimeHours uptime < 24) by (rewrite Eh; apply Z.mod_pos_bound; lia).
  assert (Hm : 0 <= uptimeMinutes uptime < 60) by (rewrite Em; apply Z.mod_pos_bound; lia).
  split; [exact Hd|]. split; [exact Hh|]. split; [exact Hm|].
  assert (H60 : uptime / 3600 = uptime / 60 / 60) by (rewrite Z.div_div by lia; reflexivity).
  assert (H24 : uptime / 86400 = uptime / 3600 / 24) by (rewrite Z.div_div by lia; reflexivity).
  pose proof (Z.div_mod uptime 60 ltac:(lia)) as D1.
  pose proof (Z.mod_pos_bound uptime 60 ltac:(lia)) as B1.
  pose proof (Z.div_mod (uptime / 60) 60 ltac:(lia)) as D2.
  pose proof (Z.div_mod (uptime / 3600) 24 ltac:(lia)) as D3.
  split; [rewrite Ed, Eh, Em; lia|].
  intros Hlt. unfold formatUptime.
  rewrite Ed, Eh, Em.
  rewrite (Z.div_small uptime 86400), (Z.div_small uptime 3600), (Z.div_small uptime 60) by lia.
  reflexivity.
Qed.

Lemma formatUptime_components_witness :
  uptimeDays 1326725 * 86400 + uptimeHours 1326725 * 3600 + uptimeMinutes 1326725 * 60
  <= 1326725
  < uptimeDays 1326725 * 86400 + uptimeHours 1326725 * 3600 + uptimeMinutes 1326725 * 60 + 60.
Proof.
  apply (formatUptime_components 1326725). lia.
Defined.

(** ** The IP card service *)

Lemma lookup_map_Some {A B : Type} (f : A -> B) (l : list A) (i : nat) (a : A) :
  l !! i = Some a -> map f l !! i = Some (f a).
Proof.
  revert i. induction l as [|b l IH]; intros [|i] H; try discriminate; cbn in *.
  - now injection H as ->.
  - now apply IH.
Qed.

Lemma seq_lookup (start len i : nat) :
  (i < len)%nat -> seq start len !! i = Some (start + i)%nat.
Proof.
  revert start i. induction len as [|len IH]; intros start [|i] H; try lia; cbn.
  - f_equal. lia.
  - rewrite IH by lia. f_equal. lia.
Qed.

Lemma upto_lookup (n i : Z) : 0 <= i < n -> upto n !! Z.to_nat i = Some i.
Proof.
  intros H. unfold upto.
  rewrite (lookup_map_Some Z.of_nat _ _ (Z.to_nat i)).
  - f_equal. lia.
  - rewrite seq_lookup by lia. reflexivity.
Qed.

Lemma upto_length (n : Z) : length (upto n) = Z.to_nat n.
Proof. unfold upto. now rewrite length_map, length_seq. Qed.

(** The source column that column [x] of the scaled image is taken from. *)
Lemma scaled_index (x n d : Z) :
  0 <= x < n -> 0 < d <= 2 ^ 31 -> n <= 2 ^ 31 ->
  go_div (wrap64 (x * d)) n = x * d / n
  /\ 0 <= x * d / n < d
  /\ (d = n -> x * d / n = x).
Proof.
  intros Hx Hd Hn.
  assert (Hp : 0 <= x * d < 2 ^ 62) by nia.
  rewrite wrap64_id by (unfold in_int64, min_int64, max_int64; lia).
  unfold go_div. rewrite Z.quot_div_nonneg by lia.
  split; [reflexivity|]. split.
  - split; [apply Z.div_pos; lia|]. apply Z.div_lt_upper_bound; nia.
  - intros ->. apply Z.div_mul. lia.
Qed.

(** X15. [resizeLogo] gives [height] rows of [width] pixels, and every pixel
    of the result is a pixel from inside the bounds of the source: the
    one at [x * Dx / width], [y * Dy / height] from its corner. A source
    that already has the wanted size is copied point by point. *)
Theorem resizeLogo_samples_inside (Color : Type) (RGBAModel : Color -> Color)
    (src : Image Color) (width height x y : Z) :
  0 < Dx (Bounds src) <= 2 ^ 31 -> 0 < Dy (Bounds src) <= 2 ^ 31 ->
  width <= 2 ^ 31 -> height <= 2 ^ 31 ->
  0 <= x < width -> 0 <= y < height ->
  let dst := resizeLogo RGBAModel src width height in
  let sx := Min_X (Bounds src) + x * Dx (Bounds src) / width in
  let sy := Min_Y (Bounds src) + y * Dy (Bounds src) / height in
  length dst = Z.to_nat height
  /\ Forall (fun row => length row = Z.to_nat width) dst
  /\ (dst !! Z.to_nat y) ≫= (fun row => row !! Z.to_nat x)
     = Some (RGBAModel (At src sx sy))
  /\ Min_X (Bounds src) <= sx < Max_X (Bounds src)
  /\ Min_Y (Bounds src) <= sy < Max_Y (Bounds src)
  /\ (Dx (Bounds src) = width -> Dy (Bounds src) = height ->
      sx = Min_X (Bounds src) + x /\ sy = Min_Y (Bounds src) + y).
Proof.
  intros HDx HDy Hw Hh Hx Hy. cbv zeta.
  destruct (scaled_index x width (Dx (Bounds src)) Hx HDx Hw) as (Ex & Bx & Ix).
  destruct (scaled_index y height (Dy (Bounds src)) Hy HDy Hh) as (Ey & By & Iy).
  unfold resizeLogo.
  split; [now rewrite length_map, upto_length|]. split.
  { apply List.Forall_forall. intros row Hin. apply in_map_iff in Hin as (y0 & <- & _).
    now rewrite length_map, upto_length. }
  split.
  { rewrite (lookup_map_Some _ _ _ y (upto_lookup height y Hy)). cbn.
    rewrite (lookup_map_Some _ _ _ x (upto_lookup width x Hx)).
    cbv zeta. now rewrite Ex, Ey. }
  unfold Dx, Dy in *. split; [lia|]. split; [lia|].
  intros Ew Eh. rewrite (Ix Ew), (Iy Eh). auto.
Qed.

Lemma resizeLogo_samples_inside_witness :
  (resizeLogo (fun c : Z => c) (mkImage (mkRect 10 20 138 84) (fun x y => 1000 * y + x)) 64 64
     !! 5%nat) ≫= (fun row => row !! 3%nat)
  = Some (1000 * (20 + 5 * 64 / 64) + (10 + 3 * 128 / 64)).
Proof.
  refine (proj1 (proj2 (proj2
            (resizeLogo_samples_inside Z (fun c => c)
               (mkImage (mkRect 10 20 138 84) (fun x y => 1000 * y + x)) 64 64 3 5
               _ _ _ _ _ _)))); unfold Dx, Dy; cbn; lia.
Defined.

Lemma substring_prefix (s : string) (n : nat) :
  (n <= String.length s)%nat ->
  s = String.substring 0 n s +:+ slice_from s n
  /\ String.length (String.substring 0 n s) = n.
Proof.
  unfold slice_from. revert n. induction s as [|a s IH]; intros n Hn.
  - cbn in Hn. assert (n = 0%nat) by lia. subst. split; reflexivity.
  - destruct n as [|n].
    + rewrite Nat.sub_0_r, substring_all. split; reflexivity.
    + cbn in Hn. destruct (IH n ltac:(lia)) as [E L].
      change (String.substring 0 (S n) (String a s)) with (String a (String.substring 0 n s)).
      change (String.substring (S n) (String.length (String a s) - S n) (String a s))
        with (String.substring n (String.length s - n) s).
      rewrite app_cons, <- E. cbn [String.length]. auto.
Qed.

Lemma length_app_string (s t : string) :
  String.length (s +:+ t) = (String.length s + String.length t)%nat.
Proof.
  induction s as [|a s IH]; [reflexivity|]. rewrite app_cons. cbn. now rewrite IH.
Qed.

(** X18. The user agent on the card is never longer than 70 bytes: one of at
    most 70 bytes is shown whole, a longer one is cut to its first 67
    bytes and ["..."]. *)
Theorem shortenUA_bound (ua : string) :
  (String.length (shortenUA ua) <= 70)%nat
  /\ ((String.length ua <= 70)%nat -> shortenUA ua = ua)
  /\ ((70 < String.length ua)%nat ->
      exists head tail,
        ua = head +:+ tail /\ String.length head = 67%nat
        /\ shortenUA ua = head +:+ "..."
        /\ String.length (shortenUA ua) = 70%nat).
Proof.
  unfold shortenUA.
  destruct (70 <? String.length ua)%nat eqn:C.
  - apply Nat.ltb_lt in C.
    destruct (substring_prefix ua 67 ltac:(lia)) as [E L].
    assert (Hlen : String.length (String.substring 0 67 ua +:+ "...") = 70%nat)
      by (rewrite length_app_string, L; reflexivity).
    split; [lia|]. split; [lia|]. intros _.
    exists (String.substring 0 67 ua), (slice_from ua 67). auto.
  - apply Nat.ltb_ge in C. split; [exact C|]. split; [reflexivity|lia].
Qed.

Lemma locationText_nonempty (info : ipInfo) : locationText info <> "".
Proof.
  unfold locationText.
  match goal with
  | |- context [String.eqb ?j ""] => destruct (String.eqb_spec j "") as [Ej|Nj]
  end; [discriminate|exact Nj].
Qed.

Lemma lookupGeo_hit (isLocalIP : string -> bool) (ip : string)
    (resp : GeoResponse) (ipCache : gmap string string) (val : string) :
  ipCache !! ip = Some val -> lookupGeo isLocalIP ip resp ipCache = (val, ipCache).
Proof. intros H. unfold lookupGeo. now rewrite H. Qed.

(** The four ways a call of [lookupGeo] can go. *)
Lemma lookupGeo_cases (isLocalIP : string -> bool) (ip : string)
    (resp : GeoResponse) (ipCache : gmap string string) :
  (exists val, ipCache !! ip = Some val
               /\ lookupGeo isLocalIP ip resp ipCache = (val, ipCache))
  \/ (ipCache !! ip = None /\ exists loc,
        loc <> ""
        /\ lookupGeo isLocalIP ip resp ipCache = (loc, <[ip := loc]> ipCache))
  \/ (ipCache !! ip = None /\ isLocalIP ip = false
      /\ (forall info, resp <> Answer info)
      /\ lookupGeo isLocalIP ip resp ipCache = (unknownRegion, ipCache)).
Proof.
  unfold lookupGeo. destruct (ipCache !! ip) as [val|]; [left; eauto|].
  destruct (isLocalIP ip).
  - right. left. split; [reflexivity|]. exists localNetwork. split; [discriminate|reflexivity].
  - destruct resp as [| |code| |info];
      try (right; right; repeat split; auto; discriminate).
    right. left. split; [reflexivity|]. exists (locationText info).
    split; [apply locationText_nonempty|reflexivity].
Qed.

Lemma insert_nonempty (ipCache : gmap string string) (ip loc : string) :
  loc <> "" ->
  (forall k v, ipCache !! k = Some v -> v <> "") ->
  forall k v, <[ip := loc]> ipCache !! k = Some v -> v <> "".
Proof.
  intros Hne Hall k v. destruct (decide (ip = k)) as [<-|Hk].
  - rewrite lookup_insert_eq. now intros [= <-].
  - rewrite lookup_insert_ne by exact Hk. apply Hall.
Qed.

(** X16. The cache of [lookupGeo]. An address that is cached is answered from
    the cache, whatever the service would say, and the cache stays as it
    is. A call never touches the entry of another address. After a call
    the address is cached with the location returned, unless the call
    found nothing cached, the address is not local and the request
    failed: then the answer is the unknown region and the cache is
    unchanged, so the next call asks again. Once cached, every later call
    returns the same location. *)
Theorem lookupGeo_cache (isLocalIP : string -> bool) (ip : string)
    (resp : GeoResponse) (ipCache : gmap string string) :
  let loc := fst (lookupGeo isLocalIP ip resp ipCache) in
  let ipCache' := snd (lookupGeo isLocalIP ip resp ipCache) in
  (forall val, ipCache !! ip = Some val -> loc = val /\ ipCache' = ipCache)
  /\ (forall other, other <> ip -> ipCache' !! other = ipCache !! other)
  /\ (ipCache' !! ip = Some loc
      \/ (ipCache !! ip = None /\ isLocalIP ip = false
          /\ (forall info, resp <> Answer info)
          /\ loc = unknownRegion /\ ipCache' = ipCache))
  /\ (ipCache' !! ip = Some loc ->
      forall resp', lookupGeo isLocalIP ip resp' ipCache' = (loc, ipCache'))
  /\ ((forall k v, ipCache !! k = Some v -> v <> "") ->
      loc <> "" /\ forall k v, ipCache' !! k = Some v -> v <> "").
Proof.
  cbv zeta.
  destruct (lookupGeo_cases isLocalIP ip resp ipCache)
    as [(val & Hc & E)|[(Hc & loc & Hne & E)|(Hc & Hl & Hr & E)]];
    rewrite E; cbn [fst snd].
  - split; [intros v Hv; rewrite Hc in Hv; now injection Hv as <-|]. split; [auto|].
    split; [auto|]. split; [intros _ resp'; now apply lookupGeo_hit|].
    intros Hall. split; [eapply Hall; eassumption|exact Hall].
  - split; [intros v Hv; congruence|].
    split; [intros other Ho; now rewrite lookup_insert_ne|].
    split; [left; apply lookup_insert_eq|].
    split; [intros _ resp'; apply lookupGeo_hit, lookup_insert_eq|].
    intros Hall. split; [exact Hne|]. now apply insert_nonempty.
  - split; [intros v Hv; congruence|]. split; [auto|].
    split; [right; auto|]. split; [intros Habs; congruence|].
    intros Hall. split; [discriminate|exact Hall].
Qed.



(** ** Thresholds and counters through float64 *)

(** X13. An alert that [checkAndSendAlert] sends under some thresholds is
    also sent under any lower ones: the conversion of a threshold to
    float64 may round, but it never reverses the order of two
    thresholds. *)
Theorem checkAndSendAlert_lower_threshold (p : Probe) (now : Z) (m m' : ServerMonitor) :
  CPUThreshold (config m') <= CPUThreshold (config m) ->
  MemThreshold (config m') <= MemThreshold (config m) ->
  snd (checkAndSendAlert p now m) <> [] ->
  snd (checkAndSendAlert p now m') <> [].
Proof.
  intros Hc Hm. unfold checkAndSendAlert.
  pose proof (float64_of_int_mono _ _ Hc) as Mc.
  pose proof (float64_of_int_mono _ _ Hm) as Mm.
  destruct (Fgt (getCPUUsage p) (float64_of_int (CPUThreshold (config m)))) eqn:A.
  - unfold Fgt in *. rewrite (Fle_Flt_trans _ _ _ Mc A). cbn.
    destruct (Flt (float64_of_int (MemThreshold (config m'))) _); cbn; discriminate.
  - destruct (Fgt (mem_UsedPercent (getMemoryInfo p))
                (float64_of_int (MemThreshold (config m)))) eqn:B.
    + unfold Fgt in *. rewrite (Fle_Flt_trans _ _ _ Mm B). cbn.
      destruct (Flt (float64_of_int (CPUThreshold (config m'))) _); cbn; discriminate.
    + cbn. congruence.
Qed.

Lemma checkAndSendAlert_lower_threshold_witness :
  snd (checkAndSendAlert (sampleProbe ([FFin 85], None) (FFin 20)) 0
         {| config := mkConfig "token" 1 "15:00" "report" 60 80; alertSent := ∅ |}) <> [].
Proof.
  apply (checkAndSendAlert_lower_threshold (sampleProbe ([FFin 85], None) (FFin 20)) 0
           sampleMonitor).
  - cbn. lia.
  - cbn. lia.
  - vm_compute. discriminate.
Defined.

Lemma binary64_round_not_nan (q : Q) : binary64_round q <> FNaN.
Proof.
  rewrite binary64_round_eq.
  destruct (Qeq_bool q 0); [discriminate|].
  destruct (Qle_bool _ _); discriminate.
Qed.

Lemma Fdiv_mono (a b : float64) (d : Q) :
  (0 < d)%Q -> Fle a b = true -> Fle (Fdiv a (FFin d)) (Fdiv b (FFin d)) = true.
Proof.
  intros Hd H.
  assert (Hz : Qeq_bool d 0 = false)
    by (apply not_true_is_false; intros E; apply Qeq_bool_iff in E; lra).
  assert (Hn : Qlt_bool d 0 = false) by (apply Qlt_bool_false; lra).
  destruct a as [|na|x], b as [|nb|y]; cbn [Fle] in H; try discriminate;
    cbn [Fdiv]; rewrite ?Hz, ?Hn, ?xorb_false_r.
  - exact H.
  - subst na. pose proof (binary64_round_not_nan (y / d)) as N.
    destruct (binary64_round (y / d)) as [|nb|q]; [congruence|reflexivity|reflexivity].
  - apply negb_true_iff in H. subst nb.
    pose proof (binary64_round_not_nan (x / d)) as N.
    destruct (binary64_round (x / d)) as [|na|q]; [congruence| |reflexivity].
    cbn. apply orb_true_r.
  - apply binary64_round_mono. apply Qle_bool_iff in H.
    apply Qmult_le_compat_r; [exact H|]. apply Qlt_le_weak, Qinv_lt_0_compat, Hd.
Qed.

(** X14. The traffic that [getNetworkInfo] reports never goes down while the
    counters go up: more bytes sent (or received) never show as fewer
    gigabytes, for all the rounding of the conversion and of the three
    divisions by 1024. *)
Theorem getNetworkInfo_monotone (p p' : Probe) (s s' : IOCountersStat)
    (rest rest' : list IOCountersStat) :
  net_IOCounters p = (s :: rest, None) ->
  net_IOCounters p' = (s' :: rest', None) ->
  (BytesSent s <= BytesSent s' ->
     Fle (SentGB (getNetworkInfo p)) (SentGB (getNetworkInfo p')) = true)
  /\ (BytesRecv s <= BytesRecv s' ->
     Fle (RecvGB (getNetworkInfo p)) (RecvGB (getNetworkInfo p')) = true).
Proof.
  intros E E'. unfold getNetworkInfo. rewrite E, E'. cbn.
  assert (Hd : (0 < 1024)%Q) by reflexivity.
  split; intros H; unfold GB; repeat apply Fdiv_mono; auto; now apply float64_of_int_mono.
Qed.

Lemma getNetworkInfo_monotone_witness :
  Fle (SentGB (getNetworkInfo (counterProbe 1000000000 5)))
      (SentGB (getNetworkInfo (counterProbe 1000000001 5))) = true.
Proof.
  apply (getNetworkInfo_monotone (counterProbe 1000000000 5) (counterProbe 1000000001 5)
           (mkIO 1000000000 5) (mkIO 1000000001 5) [] [] eq_refl eq_refl).
  cbn. lia.
Defined.
